(** * ASEAN Carbon Integration Simulator: the computation core of [app.py]

    A shallow embedding of the helper functions of [app.py]
    ([calculate_carbon_liability], [get_divergence_metrics],
    [calculate_integration_roi], [get_phase_progress],
    [simulate_price_convergence]) and of the NPV loop of the liability
    calculator tab of [main], followed by the properties the specification
    states about them.  The other computations of [main] are embedded too
    (the regional liability comparison, the price trajectories of the
    policy divergence tab, the refinery filter and fleet summary, the
    investment shares), with properties read off the code.

    Numbers.  Python [int]s are [Z].  Python [float]s are idealised as exact
    rationals [Q]: every statement below is about the exact value of the
    arithmetic expression the code evaluates, not about its binary64
    rounding.  Equality of rationals is [Qeq] ([==]).  The exceptions that
    only binary64 arithmetic produces (the [OverflowError] of [**], a
    division by a power that underflowed to 0.0) are outside the model:
    what is stated about raising concerns [KeyError], [ValueError] and
    division by an exact zero.

    Errors.  Python exceptions are explicit: a computation returns
    [result A], either [Ok a] or [Raise e]. *)

From Stdlib Require Import ZArith QArith Qpower List String Bool Lia Lqa.
Import ListNotations.

Open Scope string_scope.
Open Scope Z_scope.
Open Scope Q_scope.

(* ------------------------------------------------------------------ *)
(** ** Python primitives *)

Module Py.

(** The built-in exceptions the modelled code can raise. *)
Inductive exn : Type :=
| KeyError (key : string)     (* [d[k]] with [k] absent *)
| ZeroDivisionError           (* [x / 0] *)
| ValueError.                 (* [max([])], [min([])] *)

Inductive result (A : Type) : Type :=
| Ok (a : A)
| Raise (e : exn).

Arguments Ok {A} a.
Arguments Raise {A} e.

Definition bind {A B : Type} (m : result A) (k : A -> result B) : result B :=
  match m with
  | Ok a => k a
  | Raise e => Raise e
  end.

(** [returns m q]: the computation [m] ends normally with a number equal
    to [q]. *)
Definition returns (m : result Q) (q : Q) : Prop :=
  match m with
  | Ok v => v == q
  | Raise _ => False
  end.

(** [x / y] on numbers. *)
Definition div (x y : Q) : result Q :=
  if Qeq_bool y 0 then Raise ZeroDivisionError else Ok (x / y).

(** [range(n)] *)
Definition range (n : Z) : list Z :=
  map Z.of_nat (seq 0 (Z.to_nat n)).

(** [range(a, b)] *)
Definition range2 (a b : Z) : list Z :=
  map (fun i => (a + Z.of_nat i)%Z) (seq 0 (Z.to_nat (b - a))).

(** A [for] loop over [xs] that threads the variables [s] the body
    assigns; an exception in the body leaves the loop. *)
Fixpoint for_each {A S : Type} (xs : list A) (s : S)
         (body : S -> A -> result S) : result S :=
  match xs with
  | [] => Ok s
  | x :: xs' => bind (body s x) (fun s' => for_each xs' s' body)
  end.

(** [max(xs)] and [min(xs)] over integers and over numbers: the first
    greatest (least) element, [ValueError] on an empty sequence. *)
Definition maxZ (xs : list Z) : result Z :=
  match xs with
  | [] => Raise ValueError
  | x :: xs' => Ok (fold_left (fun m y => if (m <? y)%Z then y else m) xs' x)
  end.

Definition minZ (xs : list Z) : result Z :=
  match xs with
  | [] => Raise ValueError
  | x :: xs' => Ok (fold_left (fun m y => if (y <? m)%Z then y else m) xs' x)
  end.

Definition Qlt_bool (x y : Q) : bool := negb (Qle_bool y x).

Definition maxQ (xs : list Q) : result Q :=
  match xs with
  | [] => Raise ValueError
  | x :: xs' => Ok (fold_left (fun m y => if Qlt_bool m y then y else m) xs' x)
  end.

Definition minQ (xs : list Q) : result Q :=
  match xs with
  | [] => Raise ValueError
  | x :: xs' => Ok (fold_left (fun m y => if Qlt_bool y m then y else m) xs' x)
  end.

(** [sum(xs)] over integers. *)
Definition sumZ (xs : list Z) : Z := fold_left Z.add xs 0%Z.

(** A [dict] whose iteration order matters is an association list in
    insertion order; [d[k]] raises [KeyError] on a missing key. *)
Fixpoint get {V : Type} (d : list (string * V)) (k : string) : result V :=
  match d with
  | [] => Raise (KeyError k)
  | (k', v) :: d' => if String.eqb k k' then Ok v else get d' k
  end.

Definition values {V : Type} (d : list (string * V)) : list V := map snd d.

End Py.

Import Py.

Notation "x <- m ;; k" := (bind m (fun x => k))
  (at level 61, m at next level, right associativity).

(* ------------------------------------------------------------------ *)
(** ** Reference data *)

(** One entry of [COUNTRY_DATA] (the [flag] emoji is presentation only). *)
Record country_record : Type := {
  refineries : Z;
  capacity_kbpd : Z;
  govt_ownership : Q;
  carbon_price_2024 : Z;
  carbon_price_2030 : Z;
  ets_status : string;
  ets_launch_year : Z;
  coverage_pct : Z;
  total_liability_b : Q;
  govt_exposure_b : Q;
  avg_refinery_age : Z
}.

Definition Singapore : country_record :=
  {| refineries := 3; capacity_kbpd := 1512; govt_ownership := 13 # 100;
     carbon_price_2024 := 59; carbon_price_2030 := 75;
     ets_status := "Operational"; ets_launch_year := 2019;
     coverage_pct := 80; total_liability_b := 52 # 10;
     govt_exposure_b := 9 # 10; avg_refinery_age := 45 |}.

Definition Thailand : country_record :=
  {| refineries := 6; capacity_kbpd := 1240; govt_ownership := 36 # 100;
     carbon_price_2024 := 35; carbon_price_2030 := 50;
     ets_status := "Development"; ets_launch_year := 2025;
     coverage_pct := 60; total_liability_b := 41 # 10;
     govt_exposure_b := 19 # 10; avg_refinery_age := 38 |}.

Definition Indonesia : country_record :=
  {| refineries := 8; capacity_kbpd := 1050; govt_ownership := 1;
     carbon_price_2024 := 25; carbon_price_2030 := 35;
     ets_status := "Operational"; ets_launch_year := 2023;
     coverage_pct := 50; total_liability_b := 71 # 10;
     govt_exposure_b := 71 # 10; avg_refinery_age := 52 |}.

Definition Malaysia : country_record :=
  {| refineries := 5; capacity_kbpd := 612; govt_ownership := 80 # 100;
     carbon_price_2024 := 0; carbon_price_2030 := 15;
     ets_status := "Voluntary"; ets_launch_year := 2030;
     coverage_pct := 30; total_liability_b := 27 # 10;
     govt_exposure_b := 27 # 10; avg_refinery_age := 33 |}.

Definition Vietnam : country_record :=
  {| refineries := 3; capacity_kbpd := 346; govt_ownership := 71 # 100;
     carbon_price_2024 := 20; carbon_price_2030 := 40;
     ets_status := "Development"; ets_launch_year := 2028;
     coverage_pct := 45; total_liability_b := 12 # 10;
     govt_exposure_b := 8 # 10; avg_refinery_age := 10 |}.

Definition COUNTRY_DATA : list (string * country_record) :=
  [ ("Singapore", Singapore);
    ("Thailand", Thailand);
    ("Indonesia", Indonesia);
    ("Malaysia", Malaysia);
    ("Vietnam", Vietnam) ].

(** [INVESTMENT_REQUIREMENTS]: component and [amount_m]. *)
Record investment : Type := {
  component : string;
  amount_m : Z
}.

Definition INVESTMENT_REQUIREMENTS : list investment :=
  [ {| component := "MRV Infrastructure"; amount_m := 85 |};
    {| component := "Registry Systems"; amount_m := 45 |};
    {| component := "Capacity Building"; amount_m := 35 |};
    {| component := "Market Infrastructure"; amount_m := 40 |};
    {| component := "Coordination Body"; amount_m := 24 |} ].

(* ------------------------------------------------------------------ *)
(** ** Liability engine *)

(** [calculate_carbon_liability(country, carbon_price, years=25,
    discount_rate=0.05)]: NPV, in billions, of the carbon liability of a
    country's refining sector. *)
Definition calculate_carbon_liability
    (country : string) (carbon_price : Q) (years : Z) (discount_rate : Q)
  : result Q :=
  data <- get COUNTRY_DATA country ;;
  let emissions_intensity := 14 # 100 in
  let daily_emissions :=
    inject_Z (capacity_kbpd data) * 1000 * emissions_intensity in
  let annual_emissions := daily_emissions * 365 / 1000000 in
  npv <- for_each (range years) 0 (fun npv year =>
           let price := carbon_price * (103 # 100) ^ year in
           let annual_cost := annual_emissions * price * 1000000 in
           term <- div annual_cost ((1 + discount_rate) ^ year) ;;
           Ok (npv + term)) ;;
  Ok (npv / 1000000000).

(** One row of [yearly_data] in the liability calculator tab. *)
Record yearly_row : Type := {
  Year : Z;
  Carbon_Price : Q;
  Annual_Cost_M : Q;
  Discounted_Cost_M : Q
}.

(** The NPV loop of the liability calculator tab of [main]:
    [country_data] is the selected entry of [COUNTRY_DATA],
    [base_carbon_price], [price_escalation] (percent) and [coverage]
    (percent) are the tab's inputs, [analysis_years] and [discount_rate]
    the sidebar's.  Returns [(npv_liability, yearly_data)]; the tab then
    shows [npv_liability / 1_000_000_000]. *)
Definition main_tab2_npv
    (country_data : country_record) (base_carbon_price price_escalation : Q)
    (coverage : Q) (analysis_years : Z) (discount_rate : Q)
  : result (Q * list yearly_row) :=
  let emissions_intensity := 14 # 100 in
  let daily_emissions :=
    inject_Z (capacity_kbpd country_data) * 1000 * emissions_intensity in
  let annual_emissions_mt := daily_emissions * 365 / 1000000 in
  for_each (range analysis_years) (0, [])
    (fun '(npv_liability, yearly_data) year =>
       let price := base_carbon_price * (1 + price_escalation / 100) ^ year in
       let covered_emissions := annual_emissions_mt * (coverage / 100) in
       let annual_cost := covered_emissions * price * 1000000 in
       discounted_cost <- div annual_cost ((1 + discount_rate) ^ year) ;;
       Ok (npv_liability + discounted_cost,
           (yearly_data ++
            [ {| Year := 2025 + year;
                 Carbon_Price := price;
                 Annual_Cost_M := annual_cost / 1000000;
                 Discounted_Cost_M := discounted_cost / 1000000 |} ])%list)).

(** Sum of a list of numbers. *)
Fixpoint Qsum (xs : list Q) : Q :=
  match xs with
  | [] => 0
  | x :: xs' => x + Qsum xs'
  end.

(** The NPV as the specification writes it, in dollars: the year-[t] cost
    [(annual emissions * c * basePrice * (1+e)^t) / (1+d)^t], escalated
    first and discounted after, ... *)
Definition npv_term (emissions c basePrice e d : Q) (t : Z) : Q :=
  (emissions * c * basePrice * (1 + e) ^ t) / (1 + d) ^ t.

(** ... summed over [t = 0 .. h-1]. *)
Definition npv_sum (emissions c basePrice e d : Q) (h : Z) : Q :=
  Qsum (map (npv_term emissions c basePrice e d) (range h)).

(** Annual emissions of an entity, in tonnes: intensity (tCO2 per barrel)
    times capacity (thousand barrels per day) times 1000 times 365. *)
Definition annual_emissions_t (data : country_record) : Q :=
  (14 # 100) * (inject_Z (capacity_kbpd data) * 1000) * 365.

(** The step of the loop of the liability calculator tab, when no
    division fails. *)
Definition tab2_step (data : country_record)
           (base_carbon_price price_escalation coverage discount_rate : Q)
           (st : Q * list yearly_row) (year : Z) : Q * list yearly_row :=
  let annual_emissions_mt :=
    inject_Z (capacity_kbpd data) * 1000 * (14 # 100) * 365 / 1000000 in
  let price := base_carbon_price * (1 + price_escalation / 100) ^ year in
  let annual_cost :=
    annual_emissions_mt * (coverage / 100) * price * 1000000 in
  let discounted_cost := annual_cost / (1 + discount_rate) ^ year in
  (fst st + discounted_cost,
   (snd st ++
    [ {| Year := 2025 + year;
         Carbon_Price := price;
         Annual_Cost_M := annual_cost / 1000000;
         Discounted_Cost_M := discounted_cost / 1000000 |} ])%list).

(* ------------------------------------------------------------------ *)
(** ** Divergence metrics *)

(** A [float] that may be [float('inf')]. *)
Inductive number : Type :=
| Finite (q : Q)
| Inf.

Record divergence_metrics : Type := {
  timeline_spread : Z;
  price_spread : number;
  max_price : Z;
  min_price : Z
}.

(** [get_divergence_metrics()], with the module-level table it reads made
    a parameter.  The entries of the returned dict are evaluated in the
    order they are written; in the conditional expression the condition
    [min(prices) > 0] is evaluated first. *)
Definition get_divergence_metrics_on
    (table : list (string * country_record)) : result divergence_metrics :=
  let prices :=
    map carbon_price_2024
        (filter (fun d => (0 <? carbon_price_2024 d)%Z) (values table)) in
  let years := map ets_launch_year (values table) in
  max_years <- maxZ years ;;
  min_years <- minZ years ;;
  lowest <- minZ prices ;;
  spread <- (if (0 <? lowest)%Z
             then (hi <- maxZ prices ;;
                   lo <- minZ prices ;;
                   q <- div (inject_Z hi) (inject_Z lo) ;;
                   Ok (Finite q))
             else Ok Inf) ;;
  hi <- maxZ prices ;;
  lo <- minZ (filter (fun p => (0 <? p)%Z) prices) ;;
  Ok {| timeline_spread := max_years - min_years;
        price_spread := spread;
        max_price := hi;
        min_price := lo |}.

Definition get_divergence_metrics : result divergence_metrics :=
  get_divergence_metrics_on COUNTRY_DATA.

(* ------------------------------------------------------------------ *)
(** ** Integration ROI *)

Record roi_metrics : Type := {
  total_investment : Z;
  total_benefits : Z;
  benefit_cost_ratio : Q;
  annual_savings : Z;
  payback_years : Q
}.

(** [calculate_integration_roi()] *)
Definition calculate_integration_roi : result roi_metrics :=
  let total_investment := sumZ (map amount_m INVESTMENT_REQUIREMENTS) in
  let annual_operational_savings := 18%Z in
  let annual_market_efficiency := 50%Z in
  let climate_benefits_npv := 200%Z in
  let years := 10%Z in
  let total_benefits :=
    ((annual_operational_savings + annual_market_efficiency) * years
     + climate_benefits_npv)%Z in
  ratio <- div (inject_Z total_benefits) (inject_Z total_investment) ;;
  payback <- div (inject_Z total_investment)
                 (inject_Z (annual_operational_savings
                            + annual_market_efficiency)) ;;
  Ok {| total_investment := total_investment;
        total_benefits := total_benefits;
        benefit_cost_ratio := ratio;
        annual_savings :=
          (annual_operational_savings + annual_market_efficiency)%Z;
        payback_years := payback |}.

(* ------------------------------------------------------------------ *)
(** ** Phase progress *)

(** A value of the [phases] dict ([end] is a keyword, hence [end_]). *)
Record phase_info : Type := {
  start : Z;
  end_ : Z;
  name : string
}.

(** An element of the list [get_phase_progress] returns. *)
Record phase_row : Type := {
  phase : string;
  phase_name : string;
  phase_start : Z;
  phase_end : Z;
  progress : Q;
  status : string
}.

Definition phases : list (string * phase_info) :=
  [ ("Phase 1", {| start := 2025; end_ := 2028; name := "Foundation" |});
    ("Phase 2", {| start := 2028; end_ := 2035; name := "Convergence" |});
    ("Phase 3", {| start := 2035; end_ := 2045; name := "Full Integration" |}) ].

(** The body of the loop of [get_phase_progress] for one phase. *)
Definition phase_progress (current_year : Z) (phase : string)
           (info : phase_info) : result phase_row :=
  ps <- (if (current_year <? start info)%Z then Ok (0, "Not Started")
         else if (current_year >=? end_ info)%Z then Ok (100, "Complete")
         else (q <- div (inject_Z (current_year - start info))
                        (inject_Z (end_ info - start info)) ;;
               Ok (q * 100, "In Progress"))) ;;
  Ok {| phase := phase;
        phase_name := name info;
        phase_start := start info;
        phase_end := end_ info;
        progress := fst ps;
        status := snd ps |}.

(** [get_phase_progress(current_year=2025)] *)
Definition get_phase_progress (current_year : Z) : result (list phase_row) :=
  for_each phases []
    (fun results '(phase, info) =>
       r <- phase_progress current_year phase info ;;
       Ok (results ++ [r])%list).

(* ------------------------------------------------------------------ *)
(** ** Price convergence *)

(** The anchors of one country: the values under the keys ['2024'],
    ['2030'] and ['2045'] of its entry in [trajectories]. *)
Record anchors : Type := {
  p2024 : Q;
  p2030 : Q;
  p2045 : Q
}.

(** The base trajectories. *)
Definition trajectories : list (string * anchors) :=
  [ ("Singapore", {| p2024 := 59; p2030 := 75; p2045 := 95 |});
    ("Thailand", {| p2024 := 35; p2030 := 50; p2045 := 85 |});
    ("Indonesia", {| p2024 := 25; p2030 := 35; p2045 := 75 |});
    ("Malaysia", {| p2024 := 0; p2030 := 15; p2045 := 70 |});
    ("Vietnam", {| p2024 := 20; p2030 := 40; p2045 := 80 |}) ].

(** [for country in trajectories: trajectories[country]['2030'] *= f30;
    trajectories[country]['2045'] *= f45] *)
Definition scale_anchors (f30 f45 : Q) (a : anchors) : anchors :=
  {| p2024 := p2024 a; p2030 := p2030 a * f30; p2045 := p2045 a * f45 |}.

Definition scale (f30 f45 : Q) (tr : list (string * anchors))
  : list (string * anchors) :=
  map (fun '(country, a) => (country, scale_anchors f30 f45 a)) tr.

(** The trajectories after the [if scenario == ...] block. *)
Definition scenario_trajectories (scenario : string)
  : list (string * anchors) :=
  if String.eqb scenario "accelerated" then
    scale (12 # 10) (11 # 10) trajectories
  else if String.eqb scenario "delayed" then
    scale (8 # 10) (9 # 10) trajectories
  else trajectories.

(** The value assigned to [row[country]] for one year. *)
Definition country_price (year : Z) (prices : anchors) : Q :=
  if (year <=? 2024)%Z then p2024 prices
  else if (year <=? 2030)%Z then
    let progress := inject_Z (year - 2024) / 6 in
    p2024 prices + (p2030 prices - p2024 prices) * progress
  else if (year <=? 2045)%Z then
    let progress := inject_Z (year - 2030) / 15 in
    p2030 prices + (p2045 prices - p2030 prices) * progress
  else p2045 prices.

(** [d[k] = v] on a dict kept in insertion order. *)
Fixpoint set_item (d : list (string * Q)) (k : string) (v : Q)
  : list (string * Q) :=
  match d with
  | [] => [(k, v)]
  | (k', v') :: d' =>
      if String.eqb k k' then (k, v) :: d' else (k', v') :: set_item d' k v
  end.

(** The row after the loop over the countries. *)
Definition price_row (tr : list (string * anchors)) (year : Z)
  : list (string * Q) :=
  fold_left (fun row '(country, prices) =>
               set_item row country (country_price year prices))
            tr [("year", inject_Z year)].

(** [[v for k, v in row.items() if k != 'year' and v > 0]] *)
Definition active_prices (row : list (string * Q)) : list Q :=
  map snd
      (filter (fun '(k, v) => negb (String.eqb k "year") && Qlt_bool 0 v)
              row).

(** [max(active_prices) / min(active_prices) if min(active_prices) > 0
    else 0] *)
Definition spread_of (active : list Q) : result Q :=
  lowest <- minQ active ;;
  if Qlt_bool 0 lowest then
    hi <- maxQ active ;;
    lo <- minQ active ;;
    div hi lo
  else Ok 0.

(** The loop over the years of [simulate_price_convergence], for the
    trajectories [trajectories] the scenario block leaves. *)
Definition simulate_rows (trajectories : list (string * anchors))
  : result (list (list (string * Q))) :=
  let years := range2 2024 2051 in
  for_each years []
    (fun results year =>
       let row := price_row trajectories year in
       let active := active_prices row in
       spread <- spread_of active ;;
       Ok (results ++ [set_item row "spread" spread])%list).

(** [simulate_price_convergence(scenario='baseline')]: the rows of the
    returned data frame, one per year from 2024 to 2050. *)
Definition simulate_price_convergence (scenario : string)
  : result (list (list (string * Q))) :=
  simulate_rows (scenario_trajectories scenario).

(** The entry of column [column] in the row of year [year] of a data
    frame. *)
Definition cell (df : list (list (string * Q))) (year : Z) (column : string)
  : result Q :=
  match find (fun row => match get row "year" with
                         | Ok y => Qeq_bool y (inject_Z year)
                         | Raise _ => false
                         end) df with
  | Some row => get row column
  | None => Raise (KeyError "year")
  end.

(** The line through [(x0, y0)] and [(x1, y1)], as the specification
    writes it. *)
Definition linear_interpolation (x0 : Z) (y0 : Q) (x1 : Z) (y1 : Q) (x : Z)
  : Q :=
  y0 + (y1 - y0) * inject_Z (x - x0) / inject_Z (x1 - x0).

(* ------------------------------------------------------------------ *)
(** ** Checks evaluated in the proofs *)

(** Every cell of a country of [tr], in every year from 2024 to 2050, holds
    the value [country_price] gives for the country's anchors. *)
Definition cells_agree (tr : list (string * anchors)) : bool :=
  match simulate_rows tr with
  | Ok df =>
      forallb (fun year =>
        forallb (fun '(country, a) =>
          match cell df year country with
          | Ok v => Qeq_bool v (country_price year a)
          | Raise _ => false
          end) tr) (range2 2024 2051)
  | Raise _ => false
  end.

(** In every year from 2024 to 2050 some price is active, the least active
    price is positive, and the [spread] cell is the greatest active price
    over the least, at least 1. *)
Definition spreads_agree (tr : list (string * anchors)) : bool :=
  match simulate_rows tr with
  | Ok df =>
      forallb (fun year =>
        let active := active_prices (price_row tr year) in
        match active, maxQ active, minQ active, cell df year "spread" with
        | _ :: _, Ok hi, Ok lo, Ok s =>
            Qlt_bool 0 lo && Qeq_bool s (hi / lo) && Qle_bool 1 s
        | _, _, _, _ => false
        end) (range2 2024 2051)
  | Raise _ => false
  end.

(* ------------------------------------------------------------------ *)
(** ** Regional liability comparison (liability calculator tab) *)

(** A row of [comparison_data] (the flag prefix of ['Country'] is
    presentation only). *)
Record comparison_row : Type := {
  Country : string;
  Liability_B : Q;
  Govt_Exposure_B : Q
}.

(** [data['carbon_price_2024'] if data['carbon_price_2024'] > 0 else 15]:
    the price used for a country by the comparison tables, with the floor
    15 for a country without a carbon price. *)
Definition comparison_price (data : country_record) : Q :=
  if (0 <? carbon_price_2024 data)%Z then inject_Z (carbon_price_2024 data)
  else 15.

(** The loop that fills [comparison_data] in the liability calculator tab
    of [main], over the table [table] it iterates ([COUNTRY_DATA]). *)
Definition regional_comparison_on (table : list (string * country_record))
           (analysis_years : Z) (discount_rate : Q)
  : result (list comparison_row) :=
  for_each table []
    (fun comparison_data '(country, data) =>
       let price := comparison_price data in
       liability <- calculate_carbon_liability country price analysis_years
                                               discount_rate ;;
       Ok (comparison_data ++
           [ {| Country := country;
                Liability_B := liability;
                Govt_Exposure_B := liability * govt_ownership data |} ])%list).

Definition regional_comparison (analysis_years : Z) (discount_rate : Q)
  : result (list comparison_row) :=
  regional_comparison_on COUNTRY_DATA analysis_years discount_rate.

(* ------------------------------------------------------------------ *)
(** ** Price trajectories of the policy divergence tab *)

(** The price of one year in the loop that fills [trajectories] in the
    policy divergence tab of [main]: linear up to 2030, then 3% growth a
    year. *)
Definition tab3_price (data : country_record) (year : Z) : Q :=
  let base := comparison_price data in
  let target_2030 := inject_Z (carbon_price_2030 data) in
  if (year <=? 2030)%Z then
    let progress := inject_Z (year - 2024) / 6 in
    base + (target_2030 - base) * progress
  else
    target_2030 * (103 # 100) ^ (year - 2030).

(** [trajectories[country]]: the prices of the years 2024 to 2050. *)
Definition tab3_prices (data : country_record) : list Q :=
  map (tab3_price data) (range2 2024 2051).

Definition tab3_trajectories : list (string * list Q) :=
  map (fun '(country, data) => (country, tab3_prices data)) COUNTRY_DATA.

(** The geometric ratio of the helper's cash flows: escalation over
    discounting. *)
Definition growth_ratio (d : Q) : Q := (103 # 100) / (1 + d).

(** The row appended to [yearly_data] for one year. *)
Definition tab2_row (data : country_record)
           (base_carbon_price price_escalation coverage discount_rate : Q)
           (year : Z) : yearly_row :=
  let annual_emissions_mt :=
    inject_Z (capacity_kbpd data) * 1000 * (14 # 100) * 365 / 1000000 in
  let price := base_carbon_price * (1 + price_escalation / 100) ^ year in
  let annual_cost :=
    annual_emissions_mt * (coverage / 100) * price * 1000000 in
  let discounted_cost := annual_cost / (1 + discount_rate) ^ year in
  {| Year := 2025 + year;
     Carbon_Price := price;
     Annual_Cost_M := annual_cost / 1000000;
     Discounted_Cost_M := discounted_cost / 1000000 |}.

(* ------------------------------------------------------------------ *)
(** ** Integration ROI over a table, and the investment shares *)

(** [calculate_integration_roi()], with the module-level table it sums
    made a parameter. *)
Definition calculate_integration_roi_on (table : list investment)
  : result roi_metrics :=
  let total_investment := sumZ (map amount_m table) in
  let annual_operational_savings := 18%Z in
  let annual_market_efficiency := 50%Z in
  let climate_benefits_npv := 200%Z in
  let years := 10%Z in
  let total_benefits :=
    ((annual_operational_savings + annual_market_efficiency) * years
     + climate_benefits_npv)%Z in
  ratio <- div (inject_Z total_benefits) (inject_Z total_investment) ;;
  payback <- div (inject_Z total_investment)
                 (inject_Z (annual_operational_savings
                            + annual_market_efficiency)) ;;
  Ok {| total_investment := total_investment;
        total_benefits := total_benefits;
        benefit_cost_ratio := ratio;
        annual_savings :=
          (annual_operational_savings + annual_market_efficiency)%Z;
        payback_years := payback |}.

(** The numbers behind the ['Share'] column of the investment table of
    [main]: [x / roi['total_investment'] * 100] for every amount [x]
    (before the [.0f] formatting). *)
Definition investment_shares_on (table : list investment)
  : result (list Q) :=
  roi <- calculate_integration_roi_on table ;;
  for_each (map amount_m table) []
    (fun shares x =>
       q <- div (inject_Z x) (inject_Z (total_investment roi)) ;;
       Ok (shares ++ [q * 100])%list).

(** The [spread] cells of 2024, of 2030 and of 2045 to 2050 are 59/20, 5
    and 19/14. *)
Definition anchor_spreads_agree (tr : list (string * anchors)) : bool :=
  match simulate_rows tr with
  | Ok df =>
      forallb (fun '(year, expected) =>
                 match cell df year "spread" with
                 | Ok s => Qeq_bool s expected
                 | Raise _ => false
                 end)
              [ (2024%Z, 59 # 20); (2030%Z, 5); (2045%Z, 19 # 14);
                (2046%Z, 19 # 14); (2047%Z, 19 # 14); (2048%Z, 19 # 14);
                (2049%Z, 19 # 14); (2050%Z, 19 # 14) ]
  | Raise _ => false
  end.

(** From one year to the next the [spread] cell rises in 2024, falls from
    2025 to 2044 and stays from 2045 on. *)
Definition spread_steps_agree (tr : list (string * anchors)) : bool :=
  match simulate_rows tr with
  | Ok df =>
      forallb (fun year =>
                 match cell df year "spread",
                       cell df (year + 1) "spread" with
                 | Ok s, Ok s' =>
                     if (year =? 2024)%Z then Qlt_bool s s'
                     else if (year <? 2045)%Z then Qlt_bool s' s
                     else Qeq_bool s' s
                 | _, _ => false
                 end)
              (range2 2024 2050)
  | Raise _ => false
  end.

(* ------------------------------------------------------------------ *)
(** ** Refinery analysis tab: filter, risk level and fleet summary *)

Module Refinery.

(** One entry of [REFINERY_DATA]. *)
Record t : Type := {
  country : string;
  name : string;
  capacity_kbpd : Z;
  owner : string;
  govt_owned : bool;
  age_years : Z;
  complexity : string
}.

End Refinery.

Definition REFINERY_DATA : list Refinery.t :=
  [
    {| Refinery.country := "Singapore"; Refinery.name := "ExxonMobil Jurong";
       Refinery.capacity_kbpd := 592; Refinery.owner := "ExxonMobil";
       Refinery.govt_owned := false; Refinery.age_years := 55;
       Refinery.complexity := "High" |};
    {| Refinery.country := "Singapore"; Refinery.name := "Shell Pulau Bukom";
       Refinery.capacity_kbpd := 500; Refinery.owner := "Shell";
       Refinery.govt_owned := false; Refinery.age_years := 62;
       Refinery.complexity := "High" |};
    {| Refinery.country := "Singapore"; Refinery.name := "SRC Jurong Island";
       Refinery.capacity_kbpd := 420; Refinery.owner := "SPC/PetroChina";
       Refinery.govt_owned := true; Refinery.age_years := 18;
       Refinery.complexity := "High" |};
    {| Refinery.country := "Thailand"; Refinery.name := "Thai Oil Sriracha";
       Refinery.capacity_kbpd := 275; Refinery.owner := "PTT Group";
       Refinery.govt_owned := true; Refinery.age_years := 58;
       Refinery.complexity := "High" |};
    {| Refinery.country := "Thailand"; Refinery.name := "IRPC Rayong";
       Refinery.capacity_kbpd := 215; Refinery.owner := "PTT Group";
       Refinery.govt_owned := true; Refinery.age_years := 42;
       Refinery.complexity := "Medium" |};
    {| Refinery.country := "Thailand"; Refinery.name := "Star Petroleum Map Ta Phut";
       Refinery.capacity_kbpd := 165; Refinery.owner := "Chevron/PTT";
       Refinery.govt_owned := true; Refinery.age_years := 28;
       Refinery.complexity := "High" |};
    {| Refinery.country := "Thailand"; Refinery.name := "ESSO Sriracha";
       Refinery.capacity_kbpd := 174; Refinery.owner := "ExxonMobil";
       Refinery.govt_owned := false; Refinery.age_years := 55;
       Refinery.complexity := "Medium" |};
    {| Refinery.country := "Thailand"; Refinery.name := "Bangchak Bangkok";
       Refinery.capacity_kbpd := 120; Refinery.owner := "Bangchak";
       Refinery.govt_owned := false; Refinery.age_years := 40;
       Refinery.complexity := "Medium" |};
    {| Refinery.country := "Thailand"; Refinery.name := "PTT GC Rayong";
       Refinery.capacity_kbpd := 291; Refinery.owner := "PTT Group";
       Refinery.govt_owned := true; Refinery.age_years := 12;
       Refinery.complexity := "High" |};
    {| Refinery.country := "Indonesia"; Refinery.name := "Pertamina Cilacap";
       Refinery.capacity_kbpd := 348; Refinery.owner := "Pertamina";
       Refinery.govt_owned := true; Refinery.age_years := 48;
       Refinery.complexity := "High" |};
    {| Refinery.country := "Indonesia"; Refinery.name := "Pertamina Balikpapan";
       Refinery.capacity_kbpd := 260; Refinery.owner := "Pertamina";
       Refinery.govt_owned := true; Refinery.age_years := 102;
       Refinery.complexity := "Medium" |};
    {| Refinery.country := "Indonesia"; Refinery.name := "Pertamina Dumai";
       Refinery.capacity_kbpd := 170; Refinery.owner := "Pertamina";
       Refinery.govt_owned := true; Refinery.age_years := 52;
       Refinery.complexity := "Medium" |};
    {| Refinery.country := "Indonesia"; Refinery.name := "Pertamina Balongan";
       Refinery.capacity_kbpd := 125; Refinery.owner := "Pertamina";
       Refinery.govt_owned := true; Refinery.age_years := 30;
       Refinery.complexity := "High" |};
    {| Refinery.country := "Indonesia"; Refinery.name := "Pertamina Plaju";
       Refinery.capacity_kbpd := 118; Refinery.owner := "Pertamina";
       Refinery.govt_owned := true; Refinery.age_years := 89;
       Refinery.complexity := "Low" |};
    {| Refinery.country := "Indonesia"; Refinery.name := "Pertamina Kasim";
       Refinery.capacity_kbpd := 10; Refinery.owner := "Pertamina";
       Refinery.govt_owned := true; Refinery.age_years := 25;
       Refinery.complexity := "Low" |};
    {| Refinery.country := "Indonesia"; Refinery.name := "Trans Pacific Tuban";
       Refinery.capacity_kbpd := 100; Refinery.owner := "TPPI";
       Refinery.govt_owned := true; Refinery.age_years := 18;
       Refinery.complexity := "Medium" |};
    {| Refinery.country := "Indonesia"; Refinery.name := "Pertamina Sungai Pakning";
       Refinery.capacity_kbpd := 50; Refinery.owner := "Pertamina";
       Refinery.govt_owned := true; Refinery.age_years := 55;
       Refinery.complexity := "Low" |};
    {| Refinery.country := "Malaysia"; Refinery.name := "Petronas RAPID Pengerang";
       Refinery.capacity_kbpd := 300; Refinery.owner := "Petronas";
       Refinery.govt_owned := true; Refinery.age_years := 5;
       Refinery.complexity := "High" |};
    {| Refinery.country := "Malaysia"; Refinery.name := "Petronas Melaka I";
       Refinery.capacity_kbpd := 100; Refinery.owner := "Petronas";
       Refinery.govt_owned := true; Refinery.age_years := 30;
       Refinery.complexity := "Medium" |};
    {| Refinery.country := "Malaysia"; Refinery.name := "Petronas Melaka II";
       Refinery.capacity_kbpd := 100; Refinery.owner := "Petronas";
       Refinery.govt_owned := true; Refinery.age_years := 25;
       Refinery.complexity := "Medium" |};
    {| Refinery.country := "Malaysia"; Refinery.name := "Petronas Kertih";
       Refinery.capacity_kbpd := 47; Refinery.owner := "Petronas";
       Refinery.govt_owned := true; Refinery.age_years := 40;
       Refinery.complexity := "Low" |};
    {| Refinery.country := "Malaysia"; Refinery.name := "Hengyuan Port Dickson";
       Refinery.capacity_kbpd := 156; Refinery.owner := "Hengyuan";
       Refinery.govt_owned := false; Refinery.age_years := 60;
       Refinery.complexity := "Medium" |};
    {| Refinery.country := "Vietnam"; Refinery.name := "Nghi Son";
       Refinery.capacity_kbpd := 200; Refinery.owner := "NSRP JV";
       Refinery.govt_owned := true; Refinery.age_years := 6;
       Refinery.complexity := "High" |};
    {| Refinery.country := "Vietnam"; Refinery.name := "Dung Quat";
       Refinery.capacity_kbpd := 130; Refinery.owner := "Binh Son";
       Refinery.govt_owned := true; Refinery.age_years := 15;
       Refinery.complexity := "Medium" |};
    {| Refinery.country := "Vietnam"; Refinery.name := "Long Son (planned)";
       Refinery.capacity_kbpd := 200; Refinery.owner := "SCG/PVN";
       Refinery.govt_owned := true; Refinery.age_years := 0;
       Refinery.complexity := "High" |} ].

(** [[r for r in REFINERY_DATA if r['country'] in country_filter and
    r['complexity'] in complexity_filter]], over the table [refineries]. *)
Definition filtered_refineries_on (refineries : list Refinery.t)
           (country_filter complexity_filter : list string)
  : list Refinery.t :=
  filter (fun r =>
            existsb (String.eqb (Refinery.country r)) country_filter
            && existsb (String.eqb (Refinery.complexity r)) complexity_filter)
         refineries.

(** The ['Risk Level'] of an age (the coloured dot before the word is
    presentation only). *)
Definition risk_level (x : Z) : string :=
  if (50 <? x)%Z then "High" else if (30 <? x)%Z then "Medium" else "Low".

(** [len([a for a in ages if a > 50])] and
    [len([a for a in ages if a < 30])] *)
Definition high_risk_count (ages : list Z) : Z :=
  Z.of_nat (List.length (filter (fun a => (50 <? a)%Z) ages)).

Definition transition_ready_count (ages : list Z) : Z :=
  Z.of_nat (List.length (filter (fun a => (a <? 30)%Z) ages)).

(** [np.mean(ages)]; the summary only takes the mean of a non-empty
    list. *)
Definition mean (ages : list Z) : Q :=
  inject_Z (sumZ ages) / inject_Z (Z.of_nat (List.length ages)).

Module Summary.

(** A row of [summary_data]: the values before they are formatted (and
    without the flag before the country). *)
Record row : Type := {
  Country : string;
  Refineries : Z;
  Avg_Age : Q;
  Oldest : Z;
  Newest : Z;
  High_Risk : Z;
  Transition_Ready : Z
}.

End Summary.

(** [[r for r in filtered_refineries if r['country'] == country]] *)
Definition country_refs (filtered : list Refinery.t) (country : string)
  : list Refinery.t :=
  filter (fun r => String.eqb (Refinery.country r) country) filtered.

(** The loop that fills [summary_data] in the refinery analysis tab of
    [main], over the table [refineries].  The entries of a row are
    evaluated in the order they are written: [COUNTRY_DATA[country]]
    first. *)
Definition fleet_summary_on (refineries : list Refinery.t)
           (country_filter complexity_filter : list string)
  : result (list Summary.row) :=
  let filtered :=
    filtered_refineries_on refineries country_filter complexity_filter in
  for_each country_filter []
    (fun summary_data country =>
       match country_refs filtered country with
       | [] => Ok summary_data
       | (_ :: _) as refs =>
           let ages := map Refinery.age_years refs in
           _ <- get COUNTRY_DATA country ;;
           oldest <- maxZ ages ;;
           newest <- minZ ages ;;
           Ok (summary_data ++
               [ {| Summary.Country := country;
                    Summary.Refineries := Z.of_nat (List.length refs);
                    Summary.Avg_Age := mean ages;
                    Summary.Oldest := oldest;
                    Summary.Newest := newest;
                    Summary.High_Risk := high_risk_count ages;
                    Summary.Transition_Ready :=
                      transition_ready_count ages |} ])%list
       end).

Definition fleet_summary (country_filter complexity_filter : list string)
  : result (list Summary.row) :=
  fleet_summary_on REFINERY_DATA country_filter complexity_filter.

(** The invariants of a summary row. *)
Definition summary_row_ok (r : Summary.row) : Prop :=
  (1 <= Summary.Refineries r)%Z /\
  inject_Z (Summary.Newest r) <= Summary.Avg_Age r /\
  Summary.Avg_Age r <= inject_Z (Summary.Oldest r) /\
  (0 <= Summary.High_Risk r)%Z /\
  (0 <= Summary.Transition_Ready r)%Z /\
  (Summary.High_Risk r + Summary.Transition_Ready r
   <= Summary.Refineries r)%Z.
(* ------------------------------------------------------------------ *)
(** ** Loops and sums *)

Section Loops.

Context {A S : Type}.

(** A loop whose body raises nothing is a left fold. *)
Lemma for_each_pure (body : S -> A -> result S) (step : S -> A -> S)
      (xs : list A) :
  (forall s x, In x xs -> body s x = Ok (step s x)) ->
  forall s, for_each xs s body = Ok (fold_left step xs s).
Proof.
  induction xs as [|x xs IH]; intros Hbody s; simpl.
  - reflexivity.
  - rewrite Hbody by (left; reflexivity). simpl.
    apply IH. intros s' y Hy. apply Hbody. right; exact Hy.
Qed.

(** A loop leaves with the first exception its body raises. *)
Lemma for_each_raise (body : S -> A -> result S) (step : S -> A -> S)
      (xs ys : list A) (y : A) (e : exn) :
  (forall s x, In x xs -> body s x = Ok (step s x)) ->
  (forall s, body s y = Raise e) ->
  forall s, for_each (xs ++ y :: ys) s body = Raise e.
Proof.
  induction xs as [|x xs IH]; intros Hbody Hy s; simpl.
  - rewrite Hy. reflexivity.
  - rewrite Hbody by (left; reflexivity). simpl.
    apply IH; [|exact Hy]. intros s' z Hz. apply Hbody. right; exact Hz.
Qed.

End Loops.

Lemma fold_left_Qsum (f : Z -> Q) (xs : list Z) (s : Q) :
  fold_left (fun acc x => acc + f x) xs s == s + Qsum (map f xs).
Proof.
  revert s. induction xs as [|x xs IH]; intro s; simpl.
  - ring.
  - rewrite IH. ring.
Qed.

Lemma Qsum_ext_eq (f g : Z -> Q) (xs : list Z) :
  (forall x, In x xs -> f x == g x) ->
  Qsum (map f xs) == Qsum (map g xs).
Proof.
  induction xs as [|x xs IH]; intro H; simpl.
  - reflexivity.
  - rewrite (H x) by (left; reflexivity).
    rewrite IH by (intros y Hy; apply H; right; exact Hy).
    reflexivity.
Qed.

Lemma Qsum_le (f g : Z -> Q) (xs : list Z) :
  (forall x, In x xs -> f x <= g x) ->
  Qsum (map f xs) <= Qsum (map g xs).
Proof.
  induction xs as [|x xs IH]; intro H; simpl.
  - apply Qle_refl.
  - apply Qplus_le_compat.
    + apply H. left; reflexivity.
    + apply IH. intros y Hy. apply H. right; exact Hy.
Qed.

Lemma Qsum_nonneg (f : Z -> Q) (xs : list Z) :
  (forall x, In x xs -> 0 <= f x) -> 0 <= Qsum (map f xs).
Proof.
  induction xs as [|x xs IH]; intro H; cbn [Qsum map].
  - apply Qle_refl.
  - assert (0 <= f x) by (apply H; left; reflexivity).
    assert (0 <= Qsum (map f xs))
      by (apply IH; intros y Hy; apply H; right; exact Hy).
    lra.
Qed.

Lemma in_range (n x : Z) : In x (range n) <-> (0 <= x < n)%Z.
Proof.
  unfold range. rewrite in_map_iff. split.
  - intros [i [<- Hi]]. apply in_seq in Hi. lia.
  - intros Hx. exists (Z.to_nat x). split; [lia|]. apply in_seq. lia.
Qed.

Lemma range_nonpos (n : Z) : (n <= 0)%Z -> range n = [].
Proof.
  intro H. unfold range. replace (Z.to_nat n) with 0%nat by lia. reflexivity.
Qed.

Lemma range_ge_2 (n : Z) :
  (2 <= n)%Z -> exists rest, range n = 0%Z :: 1%Z :: rest.
Proof.
  intro H. unfold range.
  destruct (Z.to_nat n) as [|[|k]] eqn:E; try lia.
  simpl. eexists. reflexivity.
Qed.

(* ------------------------------------------------------------------ *)
(** ** The value of the liability engine *)

Lemma div_ok (x y : Q) : ~ y == 0 -> div x y = Ok (x / y).
Proof.
  intro H. unfold div.
  destruct (Qeq_bool y 0) eqn:E; [|reflexivity].
  apply Qeq_bool_iff in E. contradiction.
Qed.

Lemma div_zero (x y : Q) : y == 0 -> div x y = Raise ZeroDivisionError.
Proof.
  intro H. unfold div. apply Qeq_bool_iff in H. rewrite H. reflexivity.
Qed.

Lemma Qpower_nonzero (a : Q) (t : Z) : ~ a == 0 -> ~ a ^ t == 0.
Proof. intro H. apply Qpower_not_0. exact H. Qed.

(** The escalation factor of the helper, [1.03], is [1 + 3/100]. *)
Lemma helper_term (data : country_record) (p d : Q) (t : Z) :
  ~ 1 + d == 0 ->
  (inject_Z (capacity_kbpd data) * 1000 * (14 # 100) * 365 / 1000000)
    * (p * (103 # 100) ^ t) * 1000000 / (1 + d) ^ t
  == npv_term (annual_emissions_t data) 1 p (3 # 100) d t.
Proof.
  intro Hd. unfold npv_term, annual_emissions_t.
  assert (E : 1 + (3 # 100) == 103 # 100) by reflexivity.
  rewrite E.
  pose proof (Qpower_nonzero (1 + d) t Hd) as Hnz.
  field. exact Hnz.
Qed.

(** With [1 + discount_rate <> 0] the helper returns the sum of the
    specification at escalation 3% and coverage 1, in billions. *)
Lemma calculate_carbon_liability_value
      (country : string) (data : country_record) (p : Q) (h : Z) (d : Q) :
  get COUNTRY_DATA country = Ok data ->
  ~ 1 + d == 0 ->
  exists v, calculate_carbon_liability country p h d = Ok v /\
            v == npv_sum (annual_emissions_t data) 1 p (3 # 100) d h
                 / 1000000000.
Proof.
  intros Hget Hd. unfold calculate_carbon_liability.
  rewrite Hget. cbn [bind].
  set (ae := inject_Z (capacity_kbpd data) * 1000 * (14 # 100) * 365 / 1000000).
  rewrite (for_each_pure _
            (fun npv year =>
               npv + ae * (p * (103 # 100) ^ year) * 1000000
                     / (1 + d) ^ year)).
  - cbn [bind]. eexists. split; [reflexivity|].
    rewrite fold_left_Qsum. unfold npv_sum.
    rewrite (Qsum_ext_eq _ (npv_term (annual_emissions_t data) 1 p (3 # 100) d)).
    + field.
    + intros t _. unfold ae. apply helper_term. exact Hd.
  - intros s t _. rewrite div_ok by (apply Qpower_nonzero; exact Hd).
    reflexivity.
Qed.

Lemma tab2_step_fst data p e c d (xs : list Z) (st : Q * list yearly_row) :
  ~ 1 + d == 0 ->
  fst (fold_left (tab2_step data p e c d) xs st)
  == fst st + Qsum (map (npv_term (annual_emissions_t data) (c / 100) p
                                  (e / 100) d) xs).
Proof.
  intro Hd. revert st. induction xs as [|x xs IH]; intro st; cbn [fold_left map Qsum].
  - ring.
  - rewrite IH. cbn [tab2_step fst snd]. unfold npv_term, annual_emissions_t.
    pose proof (Qpower_nonzero (1 + d) x Hd) as Hnz.
    field. exact Hnz.
Qed.

Lemma tab2_step_rows data p e c d (xs : list Z) (st : Q * list yearly_row) :
  List.length (snd (fold_left (tab2_step data p e c d) xs st))
  = (List.length (snd st) + List.length xs)%nat.
Proof.
  revert st. induction xs as [|x xs IH]; intro st; cbn [fold_left List.length].
  - lia.
  - rewrite IH. cbn [tab2_step snd]. rewrite length_app. simpl. lia.
Qed.

Lemma main_tab2_npv_value (data : country_record) (p e c : Q) (h : Z) (d : Q) :
  ~ 1 + d == 0 ->
  exists npv rows,
    main_tab2_npv data p e c h d = Ok (npv, rows) /\
    npv == npv_sum (annual_emissions_t data) (c / 100) p (e / 100) d h /\
    List.length rows = Z.to_nat h.
Proof.
  intro Hd. unfold main_tab2_npv.
  rewrite (for_each_pure _ (tab2_step data p e c d)).
  - destruct (fold_left (tab2_step data p e c d) (range h) (0, []))
      as [npv rows] eqn:E.
    exists npv, rows. split; [reflexivity|]. split.
    + change npv with (fst (npv, rows)). rewrite <- E.
      rewrite tab2_step_fst by exact Hd. cbn [fst]. unfold npv_sum. ring.
    + change rows with (snd (npv, rows)). rewrite <- E.
      rewrite tab2_step_rows. cbn [snd List.length]. unfold range.
      rewrite length_map, length_seq. reflexivity.
  - intros [npv rows] t _.
    rewrite div_ok by (apply Qpower_nonzero; exact Hd).
    reflexivity.
Qed.

(* ------------------------------------------------------------------ *)
(** ** Facts about the reference data *)

Lemma get_In {V : Type} (d : list (string * V)) (k : string) (v : V) :
  get d k = Ok v -> In (k, v) d.
Proof.
  induction d as [|[k' v'] d IH]; simpl; intro H.
  - discriminate.
  - destruct (String.eqb k k') eqn:E.
    + apply String.eqb_eq in E. subst k'. injection H as ->. left; reflexivity.
    + right. apply IH. exact H.
Qed.

Lemma country_capacity_pos (country : string) (data : country_record) :
  get COUNTRY_DATA country = Ok data -> (0 < capacity_kbpd data)%Z.
Proof.
  intro H. apply get_In in H. unfold COUNTRY_DATA in H. simpl in H.
  repeat (destruct H as [H|H]; [injection H as _ <-; reflexivity|]).
  contradiction.
Qed.

Lemma annual_emissions_pos (country : string) (data : country_record) :
  get COUNTRY_DATA country = Ok data -> 0 < annual_emissions_t data.
Proof.
  intro H. apply country_capacity_pos in H. unfold annual_emissions_t.
  assert (0 < inject_Z (capacity_kbpd data)).
  { change 0 with (inject_Z 0). rewrite <- Zlt_Qlt. exact H. }
  lra.
Qed.

(* ------------------------------------------------------------------ *)
(** ** Order properties of the NPV sum *)

(** Powers are monotone in a positive base. *)
Lemma Qpower_base_le (a b : Q) (t : Z) :
  0 < a -> a <= b -> (0 <= t)%Z -> a ^ t <= b ^ t.
Proof.
  intros Ha Hab Ht.
  assert (Hb : 0 < b) by lra.
  assert (Hat : 0 < a ^ t) by (apply Qpower_0_lt; exact Ha).
  assert (Hq : 1 <= b / a) by (apply Qle_shift_div_l; lra).
  pose proof (Qpower_1_le (b / a) t Hq Ht) as H1.
  rewrite Qdiv_power in H1.
  assert (E : b ^ t == b ^ t / a ^ t * a ^ t) by (field; lra).
  rewrite E. set (q := b ^ t / a ^ t) in *. nra.
Qed.

Lemma Qpower_base_lt (a b : Q) (t : Z) :
  0 < a -> a < b -> (0 < t)%Z -> a ^ t < b ^ t.
Proof.
  intros Ha Hab Ht.
  assert (Hat : 0 < a ^ t) by (apply Qpower_0_lt; exact Ha).
  assert (Hq : 1 < b / a) by (apply Qlt_shift_div_l; lra).
  pose proof (Qpower_1_lt (b / a) t Hq Ht) as H1.
  rewrite Qdiv_power in H1.
  assert (E : b ^ t == b ^ t / a ^ t * a ^ t) by (field; lra).
  rewrite E. set (q := b ^ t / a ^ t) in *. nra.
Qed.

Lemma Qdiv_den_le (n a b : Q) : 0 <= n -> 0 < a -> a <= b -> n / b <= n / a.
Proof.
  intros Hn Ha Hab.
  assert (Hb : 0 < b) by lra.
  apply Qle_shift_div_l; [exact Ha|].
  setoid_replace (n / b * a) with (n * (a / b)) by (field; lra).
  assert (a / b <= 1) by (apply Qle_shift_div_r; lra).
  nra.
Qed.

Lemma Qdiv_den_lt (n a b : Q) : 0 < n -> 0 < a -> a < b -> n / b < n / a.
Proof.
  intros Hn Ha Hab.
  assert (Hb : 0 < b) by lra.
  apply Qlt_shift_div_l; [exact Ha|].
  setoid_replace (n / b * a) with (n * (a / b)) by (field; lra).
  assert (a / b < 1) by (apply Qlt_shift_div_r; lra).
  nra.
Qed.

Section NpvOrder.

Variables emissions c p e : Q.
Hypothesis emissions_nonneg : 0 <= emissions.
Hypothesis c_nonneg : 0 <= c.
Hypothesis p_nonneg : 0 <= p.
Hypothesis e_gt : -1 < e.

Lemma npv_numerator_nonneg (t : Z) : 0 <= emissions * c * p * (1 + e) ^ t.
Proof.
  assert (0 < (1 + e) ^ t) by (apply Qpower_0_lt; lra).
  assert (0 <= emissions * c) by nra.
  assert (0 <= emissions * c * p) by nra.
  nra.
Qed.

Lemma npv_term_nonneg (d : Q) (t : Z) :
  -1 < d -> 0 <= npv_term emissions c p e d t.
Proof.
  intro Hd. unfold npv_term.
  assert (0 < (1 + d) ^ t) by (apply Qpower_0_lt; lra).
  apply Qle_shift_div_l; [assumption|].
  pose proof (npv_numerator_nonneg t). lra.
Qed.

Lemma npv_term_le (d1 d2 : Q) (t : Z) :
  -1 < d1 -> d1 <= d2 -> (0 <= t)%Z ->
  npv_term emissions c p e d2 t <= npv_term emissions c p e d1 t.
Proof.
  intros H1 H12 Ht. unfold npv_term.
  apply Qdiv_den_le.
  - apply npv_numerator_nonneg.
  - apply Qpower_0_lt; lra.
  - apply Qpower_base_le; [lra | lra | exact Ht].
Qed.

Lemma npv_sum_nonneg (d : Q) (h : Z) :
  -1 < d -> 0 <= npv_sum emissions c p e d h.
Proof.
  intro Hd. unfold npv_sum. apply Qsum_nonneg.
  intros t _. apply npv_term_nonneg. exact Hd.
Qed.

Lemma npv_sum_le (d1 d2 : Q) (h : Z) :
  -1 < d1 -> d1 <= d2 ->
  npv_sum emissions c p e d2 h <= npv_sum emissions c p e d1 h.
Proof.
  intros H1 H12. unfold npv_sum. apply Qsum_le.
  intros t Ht. apply in_range in Ht. apply npv_term_le; [exact H1|exact H12|lia].
Qed.

(** The first year is neither escalated nor discounted. *)
Lemma npv_sum_one (d : Q) : npv_sum emissions c p e d 1 == emissions * c * p.
Proof.
  unfold npv_sum, npv_term. simpl. field.
Qed.

(** From the second year on a higher discount rate costs strictly less. *)
Lemma npv_sum_lt (d1 d2 : Q) (h : Z) :
  0 < emissions * c * p -> -1 < d1 -> d1 < d2 -> (2 <= h)%Z ->
  npv_sum emissions c p e d2 h < npv_sum emissions c p e d1 h.
Proof.
  intros Hpos H1 H12 Hh. unfold npv_sum.
  destruct (range_ge_2 h Hh) as [rest Hrange].
  assert (Hrest : forall t, In t rest -> (0 <= t)%Z).
  { intros t Ht.
    assert (Hin : In t (range h)) by (rewrite Hrange; right; right; exact Ht).
    apply in_range in Hin. lia. }
  rewrite Hrange. cbn [map Qsum].
  assert (H0 : npv_term emissions c p e d2 0 <= npv_term emissions c p e d1 0)
    by (apply npv_term_le; [exact H1|lra|lia]).
  assert (Hs : npv_term emissions c p e d2 1 < npv_term emissions c p e d1 1).
  { unfold npv_term. apply Qdiv_den_lt.
    - assert (0 < (1 + e) ^ 1) by (apply Qpower_0_lt; lra). nra.
    - apply Qpower_0_lt; lra.
    - apply Qpower_base_lt; [lra|lra|lia]. }
  assert (Hr : Qsum (map (npv_term emissions c p e d2) rest)
               <= Qsum (map (npv_term emissions c p e d1) rest)).
  { apply Qsum_le. intros t Ht. apply npv_term_le; [exact H1|lra|].
    apply Hrest. exact Ht. }
  lra.
Qed.

End NpvOrder.

(** Scaling to billions keeps the order. *)
Lemma billions_nonneg (x : Q) : 0 <= x -> 0 <= x / 1000000000.
Proof.
  intro H. apply Qle_shift_div_l; [reflexivity | lra].
Qed.

Lemma billions_lt (x y : Q) : x < y -> x / 1000000000 < y / 1000000000.
Proof.
  intro H. apply Qlt_shift_div_l; [reflexivity|].
  setoid_replace (x / 1000000000 * 1000000000) with x by field. exact H.
Qed.

Lemma npv_sum_nonpos_horizon (emissions c p e d : Q) (h : Z) :
  (h <= 0)%Z -> npv_sum emissions c p e d h == 0.
Proof.
  intro H. unfold npv_sum. rewrite range_nonpos by exact H. reflexivity.
Qed.

Lemma npv_sum_zero_price (emissions c e d : Q) (h : Z) :
  -1 < d -> npv_sum emissions c 0 e d h == 0.
Proof.
  intro Hd. unfold npv_sum.
  induction (range h) as [|t ts IH]; cbn [map Qsum].
  - reflexivity.
  - rewrite IH. unfold npv_term.
    assert (0 < (1 + d) ^ t) by (apply Qpower_0_lt; lra).
    field. lra.
Qed.

(* ------------------------------------------------------------------ *)
(** ** Liability engine: the claims *)

(** C1 (as stated, refuted for the helper).  The helper
    [calculate_carbon_liability] has no coverage and no escalation
    parameter, so its result cannot be the claimed sum for every coverage
    fraction [c] and escalation rate [e]: for Singapore at price 59 over
    one year it returns the full first-year cost, not half of it at
    [c = 1/2]. *)
Lemma liability_helper_ignores_coverage_and_escalation :
  ~ (forall (country : string) (data : country_record) (p e c d : Q) (h : Z),
        get COUNTRY_DATA country = Ok data ->
        0 <= c <= 1 -> -1 < d -> (1 <= h)%Z ->
        returns (calculate_carbon_liability country p h d)
                (npv_sum (annual_emissions_t data) c p e d h / 1000000000)).
Proof.
  intro H.
  specialize (H "Singapore" Singapore 59 0 (1 # 2) 0 1%Z eq_refl).
  assert (Hc : 0 <= 1 # 2 <= 1) by (split; discriminate).
  specialize (H Hc eq_refl ltac:(lia)).
  vm_compute in H. discriminate H.
Qed.

(** C1 (amended).  The NPV loop of the liability calculator tab returns
    the sum over [t = 0 .. h-1] of
    [(annual emissions * c * basePrice * (1+e)^t) / (1+d)^t] with the
    coverage fraction [c = coverage/100] and the escalation rate
    [e = price_escalation/100] taken from its inputs; the helper
    [calculate_carbon_liability] returns the same sum at [c = 1] and
    [e = 3/100], in billions. *)
Theorem liability_npv_formula
        (data : country_record) (p e c : Q) (h : Z) (d : Q) :
  -1 < d ->
  (exists npv rows,
      main_tab2_npv data p e c h d = Ok (npv, rows) /\
      npv == npv_sum (annual_emissions_t data) (c / 100) p (e / 100) d h)
  /\
  (forall country,
      get COUNTRY_DATA country = Ok data ->
      returns (calculate_carbon_liability country p h d)
              (npv_sum (annual_emissions_t data) 1 p (3 # 100) d h
               / 1000000000)).
Proof.
  intro Hd.
  assert (Hnz : ~ 1 + d == 0) by lra.
  split.
  - destruct (main_tab2_npv_value data p e c h d Hnz)
      as [npv [rows [E [Hv _]]]].
    exists npv, rows. split; assumption.
  - intros country Hget.
    destruct (calculate_carbon_liability_value country data p h d Hget Hnz)
      as [v [E Hv]].
    rewrite E. exact Hv.
Qed.

Lemma liability_npv_formula_witness :
  (exists npv rows,
      main_tab2_npv Singapore 59 3 80 25 (5 # 100) = Ok (npv, rows) /\
      npv == npv_sum (annual_emissions_t Singapore) (80 / 100) 59 (3 / 100)
                     (5 # 100) 25)
  /\
  returns (calculate_carbon_liability "Singapore" 59 25 (5 # 100))
          (npv_sum (annual_emissions_t Singapore) 1 59 (3 # 100) (5 # 100) 25
           / 1000000000).
Proof.
  destruct (liability_npv_formula Singapore 59 3 80 25 (5 # 100) eq_refl)
    as [H1 H2].
  split; [exact H1 | apply H2; reflexivity].
Defined.

(** C2 (as stated, refuted).  With a horizon of one year the only cash
    flow is the undiscounted first year, so the NPV does not depend on the
    discount rate: it is the same at 0% and at 10%. *)
Lemma liability_not_decreasing_at_horizon_one :
  exists v1 v2,
    calculate_carbon_liability "Singapore" 59 1 0 = Ok v1 /\
    calculate_carbon_liability "Singapore" 59 1 (1 # 10) = Ok v2 /\
    0 < 1 # 10 /\ ~ v2 < v1.
Proof.
  eexists. eexists.
  split; [vm_compute; reflexivity|].
  split; [vm_compute; reflexivity|].
  split; [reflexivity|].
  vm_compute. intro H. discriminate H.
Qed.

(** C2 (amended).  For every country of [COUNTRY_DATA], every horizon
    [h >= 1] and discount rates [-1 < d1 < d2], the helper returns at both
    rates; the NPV is non-negative when the price is non-negative; it is
    strictly smaller at [d2] when the price is positive and [h >= 2]; and
    it is the same at both rates when [h = 1] or the price is 0. *)
Theorem liability_nonneg_and_decreasing
        (country : string) (data : country_record) (p : Q) (h : Z)
        (d1 d2 : Q) :
  get COUNTRY_DATA country = Ok data ->
  (1 <= h)%Z -> -1 < d1 -> d1 < d2 ->
  exists v1 v2,
    calculate_carbon_liability country p h d1 = Ok v1 /\
    calculate_carbon_liability country p h d2 = Ok v2 /\
    (0 <= p -> 0 <= v1 /\ 0 <= v2) /\
    (0 < p -> (2 <= h)%Z -> v2 < v1) /\
    (h = 1%Z \/ p == 0 -> v2 == v1).
Proof.
  intros Hget Hh H1 H12.
  assert (Hem : 0 < annual_emissions_t data)
    by (apply (annual_emissions_pos country); exact Hget).
  destruct (calculate_carbon_liability_value country data p h d1 Hget)
    as [v1 [E1 Hv1]]; [lra|].
  destruct (calculate_carbon_liability_value country data p h d2 Hget)
    as [v2 [E2 Hv2]]; [lra|].
  exists v1, v2. split; [exact E1|]. split; [exact E2|].
  set (A := annual_emissions_t data) in *.
  split; [|split].
  - intro Hp.
    assert (0 <= npv_sum A 1 p (3 # 100) d1 h)
      by (apply npv_sum_nonneg; lra).
    assert (0 <= npv_sum A 1 p (3 # 100) d2 h)
      by (apply npv_sum_nonneg; lra).
    rewrite Hv1, Hv2. split; apply billions_nonneg; assumption.
  - intros Hp Hh2.
    assert (npv_sum A 1 p (3 # 100) d2 h < npv_sum A 1 p (3 # 100) d1 h).
    { apply npv_sum_lt; try lra; try exact Hh2. nra. }
    rewrite Hv1, Hv2. apply billions_lt. assumption.
  - intros [-> | Hp0].
    + rewrite Hv1, Hv2, !npv_sum_one. reflexivity.
    + rewrite Hv1, Hv2.
      assert (Ex : forall d, -1 < d -> npv_sum A 1 p (3 # 100) d h == 0).
      { intros d Hd. unfold npv_sum.
        rewrite (Qsum_ext_eq _ (npv_term A 1 0 (3 # 100) d)).
        - apply npv_sum_zero_price. exact Hd.
        - intros t _. unfold npv_term. rewrite Hp0. reflexivity. }
      rewrite !Ex by lra. reflexivity.
Qed.

Lemma liability_nonneg_and_decreasing_witness :
  exists v1 v2,
    calculate_carbon_liability "Thailand" 35 25 (5 # 100) = Ok v1 /\
    calculate_carbon_liability "Thailand" 35 25 (7 # 100) = Ok v2 /\
    (0 <= 35 -> 0 <= v1 /\ 0 <= v2) /\
    (0 < 35 -> (2 <= 25)%Z -> v2 < v1) /\
    (25%Z = 1%Z \/ 35 == 0 -> v2 == v1).
Proof.
  apply (liability_nonneg_and_decreasing
           "Thailand" Thailand 35 25 (5 # 100) (7 # 100)).
  - reflexivity.
  - lia.
  - reflexivity.
  - reflexivity.
Defined.

Lemma helper_horizon_nonpos
      (country : string) (data : country_record) (p : Q) (h : Z) (d : Q) :
  get COUNTRY_DATA country = Ok data -> (h <= 0)%Z ->
  returns (calculate_carbon_liability country p h d) 0.
Proof.
  intros Hget Hh. unfold calculate_carbon_liability.
  rewrite Hget, range_nonpos by exact Hh. reflexivity.
Qed.

(** [COUNTRY_DATA[country]] fails first for a country that is not in the
    table. *)
Lemma helper_unknown_country (country : string) (p : Q) (h : Z) (d : Q) :
  ~ In country (map fst COUNTRY_DATA) ->
  calculate_carbon_liability country p h d = Raise (KeyError country).
Proof.
  intro Hnot. unfold calculate_carbon_liability.
  assert (E : get COUNTRY_DATA country = Raise (KeyError country)).
  { induction COUNTRY_DATA as [|[k v] tbl IH]; simpl; [reflexivity|].
    destruct (String.eqb country k) eqn:Ek.
    - apply String.eqb_eq in Ek. exfalso. apply Hnot. left. symmetry. exact Ek.
    - apply IH. intro Hin. apply Hnot. right. exact Hin. }
  rewrite E. reflexivity.
Qed.

(** At [discount_rate = -1] the second year divides by [0 ** 1]. *)
Lemma helper_zero_division
      (country : string) (data : country_record) (p : Q) (h : Z) (d : Q) :
  get COUNTRY_DATA country = Ok data -> 1 + d == 0 -> (2 <= h)%Z ->
  calculate_carbon_liability country p h d = Raise ZeroDivisionError.
Proof.
  intros Hget Hd Hh. unfold calculate_carbon_liability.
  rewrite Hget. cbn [bind].
  destruct (range_ge_2 h Hh) as [rest ->].
  set (ae := inject_Z (capacity_kbpd data) * 1000 * (14 # 100) * 365 / 1000000).
  change (0%Z :: 1%Z :: rest) with ([0%Z] ++ 1%Z :: rest)%list.
  rewrite (for_each_raise _
             (fun npv year =>
                npv + ae * (p * (103 # 100) ^ year) * 1000000
                      / (1 + d) ^ year)
             [0%Z] rest 1%Z ZeroDivisionError).
  - reflexivity.
  - intros s x [<- | []]. reflexivity.
  - intro s. rewrite div_zero; [reflexivity|].
    change ((1 + d) ^ 1) with (1 + d). exact Hd.
Qed.

(** C3 (as stated, refuted).  A call with [years = 0] is answered with 0,
    and a discount rate below -1 is answered with a number. *)
Lemma liability_horizon_zero_returns_zero :
  returns (calculate_carbon_liability "Singapore" 59 0 (5 # 100)) 0 /\
  exists v, calculate_carbon_liability "Singapore" 59 3 (-2) = Ok v.
Proof.
  split.
  - vm_compute. reflexivity.
  - eexists. vm_compute. reflexivity.
Qed.

(** C3 (amended).  [calculate_carbon_liability] validates nothing, has no
    fraction parameter and no InvalidParameter condition.  For a country of
    [COUNTRY_DATA] and a price between 0 and 200: a horizon [years <= 0]
    returns 0 at every discount rate; a discount rate between -10 and -2,
    below -1, with a horizon of 1 to 30 years is not rejected but computed
    through, and returns the value of the NPV sum; at discount rate -1 a
    horizon of 1 returns the first-year cost and a horizon of 2 or more
    raises [ZeroDivisionError].  Nothing is stated for the other rates
    below -1 and for longer horizons, where a binary64 power can underflow
    to 0 or overflow. *)
Theorem liability_no_validation
        (country : string) (data : country_record) (p : Q) :
  get COUNTRY_DATA country = Ok data ->
  0 <= p <= 200 ->
  (forall h d, (h <= 0)%Z ->
     returns (calculate_carbon_liability country p h d) 0)
  /\
  (forall h d, (1 <= h <= 30)%Z -> -10 <= d <= -2 ->
     returns (calculate_carbon_liability country p h d)
             (npv_sum (annual_emissions_t data) 1 p (3 # 100) d h
              / 1000000000))
  /\
  returns (calculate_carbon_liability country p 1 (-1))
          (annual_emissions_t data * p / 1000000000)
  /\
  (forall h, (2 <= h)%Z ->
     calculate_carbon_liability country p h (-1) = Raise ZeroDivisionError).
Proof.
  intros Hget _. split; [|split; [|split]].
  - intros h d Hh. apply (helper_horizon_nonpos country data); assumption.
  - intros h d _ [_ Hd].
    destruct (calculate_carbon_liability_value country data p h d Hget)
      as [v [E Hv]]; [lra|].
    rewrite E. exact Hv.
  - unfold calculate_carbon_liability. rewrite Hget.
    unfold returns, annual_emissions_t. simpl. field.
  - intros h Hh. apply (helper_zero_division country data p h (-1) Hget);
      [reflexivity | exact Hh].
Qed.

Lemma liability_no_validation_witness :
  returns (calculate_carbon_liability "Vietnam" 20 0 (5 # 100)) 0 /\
  returns (calculate_carbon_liability "Vietnam" 20 3 (-2))
          (npv_sum (annual_emissions_t Vietnam) 1 20 (3 # 100) (-2) 3
           / 1000000000) /\
  calculate_carbon_liability "Vietnam" 20 2 (-1) = Raise ZeroDivisionError.
Proof.
  destruct (liability_no_validation "Vietnam" Vietnam 20 eq_refl)
    as [H0 [H1 [_ H2]]].
  - split; discriminate.
  - split; [apply H0; lia|].
    split; [apply H1; [lia | split; discriminate]|].
    apply H2. lia.
Defined.

(* ------------------------------------------------------------------ *)
(** ** Divergence metrics *)

Lemma minZ_filter_positive (xs : list Z) (m : Z) :
  Forall (fun x => (0 < x)%Z) xs -> minZ xs = Ok m -> (0 < m)%Z.
Proof.
  destruct xs as [|x xs]; simpl; intros Hall Hm; [discriminate|].
  injection Hm as <-.
  inversion Hall as [|? ? Hx Hxs]; subst.
  clear Hall. revert x Hx.
  induction xs as [|y ys IH]; intros x Hx; simpl.
  - exact Hx.
  - inversion Hxs as [|? ? Hy Hys]; subst.
    apply IH; [exact Hys|].
    destruct (y <? x)%Z; assumption.
Qed.

Lemma positive_prices_Forall (table : list (string * country_record)) :
  Forall (fun x => (0 < x)%Z)
         (map carbon_price_2024
              (filter (fun d => (0 <? carbon_price_2024 d)%Z) (values table))).
Proof.
  apply Forall_forall. intros x Hx.
  apply in_map_iff in Hx. destruct Hx as [d [<- Hd]].
  apply filter_In in Hd. destruct Hd as [_ Hd].
  apply Z.ltb_lt. exact Hd.
Qed.

(** The [else float('inf')] branch of [price_spread] is dead: [prices]
    only holds positive prices, so [min(prices) > 0] whenever
    [min(prices)] returns. *)
Lemma price_spread_never_inf
      (table : list (string * country_record)) (m : divergence_metrics) :
  get_divergence_metrics_on table = Ok m ->
  exists q, price_spread m = Finite q.
Proof.
  unfold get_divergence_metrics_on.
  set (prices := map carbon_price_2024 _).
  destruct (maxZ (map ets_launch_year (values table))) as [mx|]; [|discriminate].
  destruct (minZ (map ets_launch_year (values table))) as [mn|]; [|discriminate].
  cbn [bind].
  destruct (minZ prices) as [lowest|] eqn:El; [|discriminate].
  cbn [bind].
  assert (Hl : (0 < lowest)%Z).
  { apply (minZ_filter_positive prices); [|exact El].
    apply positive_prices_Forall. }
  apply Z.ltb_lt in Hl. rewrite Hl.
  destruct (maxZ prices) as [hi|]; [|discriminate].
  cbn [bind].
  destruct (div (inject_Z hi) (inject_Z lowest)) as [q|]; [|discriminate].
  cbn [bind].
  destruct (minZ (filter _ prices)) as [lo|]; [|discriminate].
  cbn [bind]. intro H. injection H as <-. exists q. reflexivity.
Qed.

(** Without an entity of positive current price the call raises
    [ValueError]: [min(prices)] is applied to an empty list, or, on an
    empty table, [max(years)] is. *)
Lemma divergence_without_positive_price
      (table : list (string * country_record)) :
  Forall (fun d => (carbon_price_2024 d <= 0)%Z) (values table) ->
  get_divergence_metrics_on table = Raise ValueError.
Proof.
  intro Hall. unfold get_divergence_metrics_on.
  assert (E : filter (fun d => (0 <? carbon_price_2024 d)%Z) (values table)
              = []).
  { induction (values table) as [|d ds IH]; simpl; [reflexivity|].
    inversion Hall as [|? ? Hd Hds]; subst.
    apply Z.ltb_ge in Hd. rewrite Hd. apply IH. exact Hds. }
  rewrite E. cbn [map].
  destruct (map ets_launch_year (values table)) as [|y ys]; reflexivity.
Qed.

(** A table whose only entity has no carbon price. *)
Example divergence_on_malaysia_alone :
  get_divergence_metrics_on [("Malaysia", Malaysia)] = Raise ValueError.
Proof.
  apply divergence_without_positive_price.
  repeat constructor. discriminate.
Qed.

(** C7.  On the embedded country data [get_divergence_metrics] returns
    timeline_spread 11 (2030 - 2019), max_price 59, min_price 20 and
    price_spread 59/20 = 2.95, the ratio of the greatest to the least
    positive current price.  On a table without a positive current price
    it raises [ValueError] instead of returning an infinite spread. *)
Theorem divergence_metrics_embedded_and_empty :
  get_divergence_metrics
  = Ok {| timeline_spread := 11;
          price_spread := Finite (59 # 20);
          max_price := 59;
          min_price := 20 |}
  /\ 59 # 20 == 295 # 100
  /\ get_divergence_metrics_on [("Malaysia", Malaysia)] = Raise ValueError.
Proof.
  split; [vm_compute; reflexivity|].
  split; [reflexivity|].
  apply divergence_on_malaysia_alone.
Qed.

(* ------------------------------------------------------------------ *)
(** ** Integration ROI *)

(** C9.  [calculate_integration_roi] returns total_investment
    85 + 45 + 35 + 40 + 24 = 229, total_benefits (18 + 50) * 10 + 200 = 880,
    benefit_cost_ratio 880/229 (3.84 to two decimals) and payback_years
    229/68 (3.37 to two decimals). *)
Theorem integration_roi_values :
  exists r,
    calculate_integration_roi = Ok r /\
    total_investment r = sumZ (map amount_m INVESTMENT_REQUIREMENTS) /\
    total_investment r = (85 + 45 + 35 + 40 + 24)%Z /\
    total_investment r = 229%Z /\
    total_benefits r = ((18 + 50) * 10 + 200)%Z /\
    total_benefits r = 880%Z /\
    benefit_cost_ratio r == 880 # 229 /\
    (3835 # 1000 <= benefit_cost_ratio r < 3845 # 1000) /\
    payback_years r == 229 # 68 /\
    (3365 # 1000 <= payback_years r < 3375 # 1000).
Proof.
  eexists. split; [vm_compute; reflexivity|].
  cbn [total_investment total_benefits benefit_cost_ratio payback_years].
  repeat split; try reflexivity; try (intro H; discriminate H).
Qed.

(* ------------------------------------------------------------------ *)
(** ** Phase progress *)



(* ------------------------------------------------------------------ *)
(** ** Price convergence *)

Lemma in_range2 (a b x : Z) : (a <= x < b)%Z -> In x (range2 a b).
Proof.
  intro H. unfold range2. apply in_map_iff.
  exists (Z.to_nat (x - a)). split; [lia|]. apply in_seq. lia.
Qed.

(** Whatever the scenario name, the trajectories are the base ones, or the
    base ones scaled once by the factors of "accelerated" or of
    "delayed". *)
Lemma scenario_trajectories_cases (scenario : string) :
  (scenario = "accelerated" /\
   scenario_trajectories scenario = scale (12 # 10) (11 # 10) trajectories)
  \/ (scenario = "delayed" /\
      scenario_trajectories scenario = scale (8 # 10) (9 # 10) trajectories)
  \/ (scenario <> "accelerated" /\ scenario <> "delayed" /\
      scenario_trajectories scenario = trajectories).
Proof.
  unfold scenario_trajectories.
  destruct (String.eqb scenario "accelerated") eqn:Ea.
  - apply String.eqb_eq in Ea. left. split; [exact Ea|reflexivity].
  - destruct (String.eqb scenario "delayed") eqn:Ed.
    + apply String.eqb_eq in Ed. right; left. split; [exact Ed|reflexivity].
    + apply String.eqb_neq in Ea. apply String.eqb_neq in Ed.
      right; right. repeat split; assumption.
Qed.

Lemma cells_agree_sound (tr : list (string * anchors)) :
  cells_agree tr = true ->
  forall country a Y,
    In (country, a) tr -> In Y (range2 2024 2051) ->
    exists df v,
      simulate_rows tr = Ok df /\
      cell df Y country = Ok v /\
      v == country_price Y a.
Proof.
  unfold cells_agree. intros H country a Y Hc HY.
  destruct (simulate_rows tr) as [df|]; [|discriminate].
  rewrite forallb_forall in H. specialize (H Y HY).
  rewrite forallb_forall in H. specialize (H (country, a) Hc).
  cbn beta iota in H.
  destruct (cell df Y country) as [v|] eqn:Ecell; [|discriminate].
  exists df, v. split; [reflexivity|]. split; [exact Ecell|].
  apply Qeq_bool_iff. exact H.
Qed.

Lemma cells_agree_all (scenario : string) :
  cells_agree (scenario_trajectories scenario) = true.
Proof.
  destruct (scenario_trajectories_cases scenario)
    as [[_ ->] | [[_ ->] | [_ [_ ->]]]]; vm_compute; reflexivity.
Qed.

(** The cell of a country in the row of a year is the value the
    interpolation rule gives for the country's anchors. *)
Lemma simulate_cell (scenario country : string) (a : anchors) (Y : Z) :
  get (scenario_trajectories scenario) country = Ok a ->
  (2024 <= Y <= 2050)%Z ->
  exists df v,
    simulate_price_convergence scenario = Ok df /\
    cell df Y country = Ok v /\
    v == country_price Y a.
Proof.
  intros Hget HY. unfold simulate_price_convergence.
  apply (cells_agree_sound _ (cells_agree_all scenario)).
  - apply get_In. exact Hget.
  - apply in_range2. lia.
Qed.

Lemma simulate_succeeds (scenario : string) :
  exists df,
    simulate_price_convergence scenario = Ok df /\
    List.length df = 27%nat.
Proof.
  unfold simulate_price_convergence.
  destruct (scenario_trajectories_cases scenario)
    as [[_ ->] | [[_ ->] | [_ [_ ->]]]];
    (eexists; split; [vm_compute; reflexivity | reflexivity]).
Qed.

(** The interpolation the code writes is the line through the two
    anchors; before the first anchor and after the last the price is
    flat. *)
Lemma country_price_piecewise (a : anchors) (Y : Z) :
  ((Y <= 2024)%Z -> country_price Y a == p2024 a) /\
  ((2024 < Y <= 2030)%Z ->
     country_price Y a
     == linear_interpolation 2024 (p2024 a) 2030 (p2030 a) Y) /\
  ((2030 < Y <= 2045)%Z ->
     country_price Y a
     == linear_interpolation 2030 (p2030 a) 2045 (p2045 a) Y) /\
  ((2045 < Y)%Z -> country_price Y a == p2045 a).
Proof.
  unfold country_price, linear_interpolation.
  destruct (Z.leb_spec Y 2024); [|destruct (Z.leb_spec Y 2030);
                                   [|destruct (Z.leb_spec Y 2045)]];
    (repeat split; intro; try lia; try reflexivity).
  - change (inject_Z (2030 - 2024)) with 6. field.
  - change (inject_Z (2045 - 2030)) with 15. field.
Qed.

(** C4.  For every scenario name, every country of the trajectories and
    every year [Y] from 2024 to 2050, the cell of the country in the row
    of [Y] is: the 2024 anchor for [Y <= 2024]; the linear interpolation
    between the (2024) and (2030) anchors for [2024 < Y <= 2030]; the
    linear interpolation between the (2030) and (2045) anchors for
    [2030 < Y <= 2045]; the 2045 anchor for [Y > 2045].  The rule that
    fills the cell, [country_price], obeys the same four cases at every
    integer year.  Under "baseline" the Singapore cells of 2024, 2027 and
    2030 are 59, 67 and 75. *)
Theorem price_path_piecewise_linear
        (scenario country : string) (a : anchors) (Y : Z) :
  get (scenario_trajectories scenario) country = Ok a ->
  (2024 <= Y <= 2050)%Z ->
  (exists df v,
     simulate_price_convergence scenario = Ok df /\
     cell df Y country = Ok v /\
     ((Y <= 2024)%Z -> v == p2024 a) /\
     ((2024 < Y <= 2030)%Z ->
        v == linear_interpolation 2024 (p2024 a) 2030 (p2030 a) Y) /\
     ((2030 < Y <= 2045)%Z ->
        v == linear_interpolation 2030 (p2030 a) 2045 (p2045 a) Y) /\
     ((2045 < Y)%Z -> v == p2045 a))
  /\
  (forall Y' : Z,
     ((Y' <= 2024)%Z -> country_price Y' a == p2024 a) /\
     ((2024 < Y' <= 2030)%Z ->
        country_price Y' a
        == linear_interpolation 2024 (p2024 a) 2030 (p2030 a) Y') /\
     ((2030 < Y' <= 2045)%Z ->
        country_price Y' a
        == linear_interpolation 2030 (p2030 a) 2045 (p2045 a) Y') /\
     ((2045 < Y')%Z -> country_price Y' a == p2045 a))
  /\
  (exists df v24 v27 v30,
     simulate_price_convergence "baseline" = Ok df /\
     cell df 2024 "Singapore" = Ok v24 /\ v24 == 59 /\
     cell df 2027 "Singapore" = Ok v27 /\ v27 == 67 /\
     cell df 2030 "Singapore" = Ok v30 /\ v30 == 75).
Proof.
  intros Hget HY. split; [|split].
  - destruct (simulate_cell scenario country a Y Hget HY)
      as [df [v [Hdf [Hcell Hv]]]].
    exists df, v. split; [exact Hdf|]. split; [exact Hcell|].
    destruct (country_price_piecewise a Y) as [H1 [H2 [H3 H4]]].
    repeat split; intro H; rewrite Hv; auto.
  - intro Y'. apply country_price_piecewise.
  - do 4 eexists.
    split; [vm_compute; reflexivity|].
    repeat split; vm_compute; reflexivity.
Qed.

Lemma price_path_piecewise_linear_witness :
  exists df v,
    simulate_price_convergence "delayed" = Ok df /\
    cell df 2040 "Vietnam" = Ok v /\
    v == linear_interpolation 2030 (40 * (8 # 10)) 2045 (80 * (9 # 10)) 2040.
Proof.
  destruct (price_path_piecewise_linear
              "delayed" "Vietnam"
              (scale_anchors (8 # 10) (9 # 10)
                             {| p2024 := 20; p2030 := 40; p2045 := 80 |})
              2040 eq_refl)
    as [[df [v [Hdf [Hcell [_ [_ [H _]]]]]]] _].
  - lia.
  - exists df, v. split; [exact Hdf|]. split; [exact Hcell|].
    apply H. lia.
Defined.

Lemma get_scale (f30 f45 : Q) (tr : list (string * anchors))
      (country : string) (a : anchors) :
  get tr country = Ok a ->
  get (scale f30 f45 tr) country = Ok (scale_anchors f30 f45 a).
Proof.
  induction tr as [|[k v] tr IH]; simpl; intro H.
  - discriminate.
  - destruct (String.eqb country k).
    + injection H as ->. reflexivity.
    + apply IH. exact H.
Qed.

Lemma base_anchors_positive (country : string) (a : anchors) :
  get trajectories country = Ok a -> 0 < p2030 a /\ 0 < p2045 a.
Proof.
  intro H. apply get_In in H. unfold trajectories in H. simpl in H.
  repeat (destruct H as [H|H]; [injection H as _ <-; split; reflexivity|]).
  contradiction.
Qed.

(** Scaling the 2030 and 2045 anchors up leaves the price unchanged up to
    2024 and raises it in every later year. *)
Lemma country_price_scaled_up (f30 f45 : Q) (a : anchors) (Y : Z) :
  1 < f30 -> 1 < f45 -> 0 < p2030 a -> 0 < p2045 a ->
  ((Y <= 2024)%Z ->
     country_price Y (scale_anchors f30 f45 a) == country_price Y a) /\
  ((2024 < Y)%Z ->
     country_price Y a < country_price Y (scale_anchors f30 f45 a)).
Proof.
  intros Hf30 Hf45 H30 H45.
  unfold country_price, scale_anchors. cbn [p2024 p2030 p2045].
  destruct a as [q24 q30 q45]. cbn [p2024 p2030 p2045] in *.
  destruct (Z.leb_spec Y 2024) as [L1|L1];
    [split; [reflexivity | lia]|].
  split; [lia|]. intros _.
  destruct (Z.leb_spec Y 2030) as [L2|L2].
  - assert (Hpr : 0 < inject_Z (Y - 2024)).
    { change 0 with (inject_Z 0). rewrite <- Zlt_Qlt. lia. }
    set (n := inject_Z (Y - 2024)) in *.
    assert (Hd : q24 + (q30 * f30 - q24) * (n / 6)
                 - (q24 + (q30 - q24) * (n / 6))
                 == q30 * (f30 - 1) * n * (1 # 6)) by field.
    assert (0 < q30 * (f30 - 1)) by nra.
    assert (0 < q30 * (f30 - 1) * n) by nra.
    lra.
  - destruct (Z.leb_spec Y 2045) as [L3|L3].
    + assert (Hlo : 0 < inject_Z (Y - 2030)).
      { change 0 with (inject_Z 0). rewrite <- Zlt_Qlt. lia. }
      assert (Hhi : inject_Z (Y - 2030) <= 15).
      { change 15 with (inject_Z 15). rewrite <- Zle_Qle. lia. }
      set (n := inject_Z (Y - 2030)) in *.
      assert (Hd : q30 * f30 + (q45 * f45 - q30 * f30) * (n / 15)
                   - (q30 + (q45 - q30) * (n / 15))
                   == q30 * (f30 - 1) * (15 - n) * (1 # 15)
                      + q45 * (f45 - 1) * n * (1 # 15)) by field.
      assert (0 < q30 * (f30 - 1)) by nra.
      assert (0 <= q30 * (f30 - 1) * (15 - n)) by nra.
      assert (0 < q45 * (f45 - 1)) by nra.
      assert (0 < q45 * (f45 - 1) * n) by nra.
      lra.
    + nra.
Qed.

(** C5.  Scenario "accelerated" multiplies the 2030 and 2045 anchors of
    the base trajectories once, by 1.2 and 1.1, before the rows are
    computed.  For every country its price equals the baseline price for
    [Y <= 2024] and is strictly above it for every [Y > 2024], both for the
    interpolation rule at any integer year and for the cells of the two
    data frames in the years 2024 to 2050; in particular in 2030. *)
Theorem accelerated_above_baseline (country : string) (a : anchors) :
  get (scenario_trajectories "baseline") country = Ok a ->
  scenario_trajectories "accelerated"
  = scale (12 # 10) (11 # 10) (scenario_trajectories "baseline")
  /\ 1 < 12 # 10 /\ 1 < 11 # 10
  /\ get (scenario_trajectories "accelerated") country
     = Ok (scale_anchors (12 # 10) (11 # 10) a)
  /\ (forall Y,
        ((Y <= 2024)%Z ->
           country_price Y (scale_anchors (12 # 10) (11 # 10) a)
           == country_price Y a) /\
        ((2024 < Y)%Z ->
           country_price Y a
           < country_price Y (scale_anchors (12 # 10) (11 # 10) a)))
  /\ (forall Y, (2024 <= Y <= 2050)%Z ->
        exists dfa dfb va vb,
          simulate_price_convergence "accelerated" = Ok dfa /\
          simulate_price_convergence "baseline" = Ok dfb /\
          cell dfa Y country = Ok va /\
          cell dfb Y country = Ok vb /\
          ((Y <= 2024)%Z -> va == vb) /\
          ((2024 < Y)%Z -> vb < va))
  /\ (exists dfa dfb va vb,
        simulate_price_convergence "accelerated" = Ok dfa /\
        simulate_price_convergence "baseline" = Ok dfb /\
        cell dfa 2030 country = Ok va /\
        cell dfb 2030 country = Ok vb /\
        vb < va).
Proof.
  intro Hget.
  change (scenario_trajectories "baseline") with trajectories in *.
  change (scenario_trajectories "accelerated")
    with (scale (12 # 10) (11 # 10) trajectories).
  destruct (base_anchors_positive country a Hget) as [H30 H45].
  pose proof (get_scale (12 # 10) (11 # 10) trajectories country a Hget)
    as Hget'.
  assert (Hrule : forall Y,
             ((Y <= 2024)%Z ->
                country_price Y (scale_anchors (12 # 10) (11 # 10) a)
                == country_price Y a) /\
             ((2024 < Y)%Z ->
                country_price Y a
                < country_price Y (scale_anchors (12 # 10) (11 # 10) a))).
  { intro Y. apply country_price_scaled_up; try assumption; reflexivity. }
  assert (Hcells : forall Y, (2024 <= Y <= 2050)%Z ->
             exists dfa dfb va vb,
               simulate_price_convergence "accelerated" = Ok dfa /\
               simulate_price_convergence "baseline" = Ok dfb /\
               cell dfa Y country = Ok va /\
               cell dfb Y country = Ok vb /\
               ((Y <= 2024)%Z -> va == vb) /\
               ((2024 < Y)%Z -> vb < va)).
  { intros Y HY.
    destruct (simulate_cell "accelerated" country _ Y Hget' HY)
      as [dfa [va [Ea [Ca Hva]]]].
    destruct (simulate_cell "baseline" country a Y Hget HY)
      as [dfb [vb [Eb [Cb Hvb]]]].
    exists dfa, dfb, va, vb.
    repeat (split; [assumption|]).
    destruct (Hrule Y) as [Hle Hgt].
    split; intro H; rewrite Hva, Hvb; auto. }
  repeat (split; [first [reflexivity | assumption]|]).
  destruct (Hcells 2030%Z ltac:(lia)) as [dfa [dfb [va [vb [Ea [Eb [Ca [Cb [_ H]]]]]]]]].
  exists dfa, dfb, va, vb.
  repeat (split; [assumption|]). apply H. lia.
Qed.

Lemma accelerated_above_baseline_witness :
  exists dfa dfb va vb,
    simulate_price_convergence "accelerated" = Ok dfa /\
    simulate_price_convergence "baseline" = Ok dfb /\
    cell dfa 2030 "Malaysia" = Ok va /\
    cell dfb 2030 "Malaysia" = Ok vb /\
    vb < va.
Proof.
  destruct (accelerated_above_baseline
              "Malaysia" {| p2024 := 0; p2030 := 15; p2045 := 70 |} eq_refl)
    as [_ [_ [_ [_ [_ [_ H]]]]]].
  exact H.
Defined.

(** C6 (as stated, refuted).  An unknown scenario name raises nothing: it
    gives the data frame of "baseline". *)
Lemma unknown_scenario_is_baseline :
  exists df,
    simulate_price_convergence "unknown" = Ok df /\
    simulate_price_convergence "baseline" = Ok df.
Proof.
  eexists. split; vm_compute; reflexivity.
Qed.

(** C6 (amended).  [simulate_price_convergence] takes a scenario name
    only; its year range is fixed to 2024..2050.  For every scenario name
    it returns a data frame with one row per year from 2024 to 2050, and a
    name other than "accelerated" and "delayed" gives the result of
    "baseline". *)
Theorem simulate_never_rejects (scenario : string) :
  (exists df,
     simulate_price_convergence scenario = Ok df /\
     map (fun row => get row "year") df
     = map (fun Y => Ok (inject_Z Y)) (range2 2024 2051))
  /\
  (scenario <> "accelerated" -> scenario <> "delayed" ->
   simulate_price_convergence scenario
   = simulate_price_convergence "baseline").
Proof.
  split.
  - unfold simulate_price_convergence.
    destruct (scenario_trajectories_cases scenario)
      as [[_ ->] | [[_ ->] | [_ [_ ->]]]];
      (eexists; split; vm_compute; reflexivity).
  - intros Ha Hd. unfold simulate_price_convergence.
    destruct (scenario_trajectories_cases scenario)
      as [[E _] | [[E _] | [_ [_ ->]]]]; [contradiction|contradiction|].
    reflexivity.
Qed.

Lemma simulate_never_rejects_witness :
  simulate_price_convergence "custom"
  = simulate_price_convergence "baseline".
Proof.
  destruct (simulate_never_rejects "custom") as [_ H].
  apply H; discriminate.
Defined.

Lemma Qlt_bool_iff (x y : Q) : Qlt_bool x y = true <-> x < y.
Proof.
  unfold Qlt_bool. rewrite negb_true_iff. split.
  - intro H. apply Qnot_le_lt. intro Hle.
    apply Qle_bool_iff in Hle. rewrite Hle in H. discriminate.
  - intro H. destruct (Qle_bool y x) eqn:E; [|reflexivity].
    apply Qle_bool_iff in E. apply Qlt_not_le in H. contradiction.
Qed.

Lemma spreads_agree_sound (tr : list (string * anchors)) :
  spreads_agree tr = true ->
  forall Y, In Y (range2 2024 2051) ->
    active_prices (price_row tr Y) <> [] /\
    exists df hi lo s,
      simulate_rows tr = Ok df /\
      maxQ (active_prices (price_row tr Y)) = Ok hi /\
      minQ (active_prices (price_row tr Y)) = Ok lo /\
      0 < lo /\
      spread_of (active_prices (price_row tr Y)) = Ok (hi / lo) /\
      cell df Y "spread" = Ok s /\
      s == hi / lo /\
      1 <= s.
Proof.
  unfold spreads_agree. intros H Y HY.
  destruct (simulate_rows tr) as [df|]; [|discriminate].
  rewrite forallb_forall in H. specialize (H Y HY). cbn beta zeta in H.
  unfold spread_of.
  destruct (active_prices (price_row tr Y)) as [|x xs] eqn:Ea;
    [discriminate|].
  split; [discriminate|].
  destruct (maxQ (x :: xs)) as [hi|] eqn:Ehi; [|discriminate].
  destruct (minQ (x :: xs)) as [lo|] eqn:Elo; [|discriminate].
  destruct (cell df Y "spread") as [s|] eqn:Es; [|discriminate].
  apply andb_true_iff in H. destruct H as [H H1].
  apply andb_true_iff in H. destruct H as [Hlo Heq].
  exists df, hi, lo, s.
  assert (Hpos : 0 < lo) by (apply Qlt_bool_iff; exact Hlo).
  split; [reflexivity|].
  split; [reflexivity|].
  split; [reflexivity|].
  split; [exact Hpos|].
  split.
  - cbn [bind]. rewrite Hlo. cbn [bind]. apply div_ok. lra.
  - split; [exact Es|].
    split; [apply Qeq_bool_iff; exact Heq | apply Qle_bool_iff; exact H1].
Qed.

Lemma spreads_agree_all (scenario : string) :
  spreads_agree (scenario_trajectories scenario) = true.
Proof.
  destruct (scenario_trajectories_cases scenario)
    as [[_ ->] | [[_ ->] | [_ [_ ->]]]]; vm_compute; reflexivity.
Qed.

(** [max] and [min] over numbers return an element of the list that
    bounds every element. *)
Lemma fold_maxQ_spec (xs : list Q) (x : Q) :
  let m := fold_left (fun m y => if Qlt_bool m y then y else m) xs x in
  In m (x :: xs) /\ Forall (fun y => y <= m) (x :: xs).
Proof.
  revert x. induction xs as [|y ys IH]; intro x; cbn [fold_left].
  - split; [left; reflexivity | repeat constructor; apply Qle_refl].
  - specialize (IH (if Qlt_bool x y then y else x)).
    cbv zeta in IH. destruct IH as [Hin Hall].
    inversion Hall as [|? ? Hhd Htl]; subst.
    destruct (Qlt_bool x y) eqn:E.
    + apply Qlt_bool_iff in E. split.
      * destruct Hin as [<-|Hin]; [right; left; reflexivity|].
        right; right; exact Hin.
      * constructor; [lra|]. constructor; [exact Hhd | exact Htl].
    + assert (Hyx : y <= x).
      { destruct (Qlt_le_dec x y) as [L|L]; [|exact L].
        apply Qlt_bool_iff in L. rewrite L in E. discriminate. }
      split.
      * destruct Hin as [<-|Hin]; [left; reflexivity|].
        right; right; exact Hin.
      * constructor; [exact Hhd|]. constructor; [lra | exact Htl].
Qed.

Lemma fold_minQ_spec (xs : list Q) (x : Q) :
  let m := fold_left (fun m y => if Qlt_bool y m then y else m) xs x in
  In m (x :: xs) /\ Forall (fun y => m <= y) (x :: xs).
Proof.
  revert x. induction xs as [|y ys IH]; intro x; cbn [fold_left].
  - split; [left; reflexivity | repeat constructor; apply Qle_refl].
  - specialize (IH (if Qlt_bool y x then y else x)).
    cbv zeta in IH. destruct IH as [Hin Hall].
    inversion Hall as [|? ? Hhd Htl]; subst.
    destruct (Qlt_bool y x) eqn:E.
    + apply Qlt_bool_iff in E. split.
      * destruct Hin as [<-|Hin]; [right; left; reflexivity|].
        right; right; exact Hin.
      * constructor; [lra|]. constructor; [exact Hhd | exact Htl].
    + assert (Hxy : x <= y).
      { destruct (Qlt_le_dec y x) as [L|L]; [|exact L].
        apply Qlt_bool_iff in L. rewrite L in E. discriminate. }
      split.
      * destruct Hin as [<-|Hin]; [left; reflexivity|].
        right; right; exact Hin.
      * constructor; [exact Hhd|]. constructor; [lra | exact Htl].
Qed.

Lemma maxQ_spec (xs : list Q) (m : Q) :
  maxQ xs = Ok m -> In m xs /\ forall y, In y xs -> y <= m.
Proof.
  destruct xs as [|x xs]; cbn [maxQ]; intro H; [discriminate|].
  injection H as <-. destruct (fold_maxQ_spec xs x) as [Hin Hall].
  split; [exact Hin|]. apply Forall_forall. exact Hall.
Qed.

Lemma minQ_spec (xs : list Q) (m : Q) :
  minQ xs = Ok m -> In m xs /\ forall y, In y xs -> m <= y.
Proof.
  destruct xs as [|x xs]; cbn [minQ]; intro H; [discriminate|].
  injection H as <-. destruct (fold_minQ_spec xs x) as [Hin Hall].
  split; [exact Hin|]. apply Forall_forall. exact Hall.
Qed.

(** Assigning to a key that the dict does not hold appends the entry. *)
Lemma set_item_absent (d : list (string * Q)) (k : string) (v : Q) :
  ~ In k (map fst d) -> set_item d k v = (d ++ [(k, v)])%list.
Proof.
  induction d as [|[k' v'] d IH]; cbn [set_item map fst In app]; intro H.
  - reflexivity.
  - destruct (String.eqb_spec k k') as [->|Hne].
    + exfalso. apply H. left. reflexivity.
    + rewrite IH; [reflexivity|]. intro Hin. apply H. right. exact Hin.
Qed.

(** With distinct country names, none of them "year", the row after the
    loop over the countries holds the year and then, in the order of the
    trajectories, one entry per country with the price of the year. *)
Lemma fold_set_item (Y : Z) (tr : list (string * anchors))
      (row0 : list (string * Q)) :
  NoDup (map fst tr) ->
  (forall k, In k (map fst tr) -> ~ In k (map fst row0)) ->
  fold_left (fun row '(country, prices) =>
               set_item row country (country_price Y prices)) tr row0
  = (row0 ++ map (fun ca => (fst ca, country_price Y (snd ca))) tr)%list.
Proof.
  revert row0. induction tr as [|[c a] tr IH]; intros row0 Hnd Hfresh.
  - cbn [fold_left map]. rewrite app_nil_r. reflexivity.
  - cbn [fold_left map fst snd] in *.
    inversion Hnd as [|? ? Hc Hnd']; subst.
    rewrite set_item_absent by (apply Hfresh; left; reflexivity).
    rewrite IH.
    + rewrite <- app_assoc. reflexivity.
    + exact Hnd'.
    + intros k Hk Hin. rewrite map_app, in_app_iff in Hin.
      destruct Hin as [Hin | [Hin | []]].
      * apply (Hfresh k); [right; exact Hk | exact Hin].
      * cbn [fst] in Hin. subst k. contradiction.
Qed.

Lemma price_row_spec (tr : list (string * anchors)) (Y : Z) :
  NoDup (map fst tr) -> ~ In "year" (map fst tr) ->
  price_row tr Y
  = ("year", inject_Z Y)
      :: map (fun ca => (fst ca, country_price Y (snd ca))) tr.
Proof.
  intros Hnd Hyear. unfold price_row. rewrite fold_set_item.
  - reflexivity.
  - exact Hnd.
  - intros k Hk [Hin | []]. cbn [fst] in Hin. subst k. contradiction.
Qed.

(** The active prices of the row are the strictly positive country prices
    of the year, in the order of the trajectories; the year itself is not
    among them. *)
Lemma active_prices_spec (tr : list (string * anchors)) (Y : Z) :
  NoDup (map fst tr) -> ~ In "year" (map fst tr) ->
  active_prices (price_row tr Y)
  = filter (Qlt_bool 0) (map (fun ca => country_price Y (snd ca)) tr).
Proof.
  intros Hnd Hyear. rewrite price_row_spec by assumption.
  unfold active_prices. cbn [filter String.eqb Ascii.eqb Bool.eqb negb andb].
  clear Hnd. induction tr as [|[c a] tr IH]; [reflexivity|].
  cbn [map fst snd filter] in *.
  assert (Hc : String.eqb c "year" = false).
  { apply String.eqb_neq. intro E. apply Hyear. left. exact E. }
  rewrite Hc. cbn [negb andb].
  assert (Htl : ~ In "year" (map fst tr))
    by (intro H; apply Hyear; right; exact H).
  destruct (Qlt_bool 0 (country_price Y a)); cbn [map snd];
    rewrite (IH Htl); reflexivity.
Qed.

Lemma scenario_keys (scenario : string) :
  map fst (scenario_trajectories scenario)
  = ["Singapore"; "Thailand"; "Indonesia"; "Malaysia"; "Vietnam"].
Proof.
  destruct (scenario_trajectories_cases scenario)
    as [[_ ->] | [[_ ->] | [_ [_ ->]]]]; reflexivity.
Qed.

Lemma scenario_keys_distinct (scenario : string) :
  NoDup (map fst (scenario_trajectories scenario))
  /\ ~ In "year" (map fst (scenario_trajectories scenario)).
Proof.
  rewrite scenario_keys. split.
  - repeat (constructor;
            [cbn [In]; intro H;
             repeat (destruct H as [H|H]; [discriminate H|]); exact H|]).
    constructor.
  - cbn [In]. intro H.
    repeat (destruct H as [H|H]; [discriminate H|]). exact H.
Qed.

Lemma In_get {V : Type} (d : list (string * V)) (k : string) (v : V) :
  NoDup (map fst d) -> In (k, v) d -> get d k = Ok v.
Proof.
  induction d as [|[k' v'] d IH]; cbn [map fst get In]; intros Hnd Hin.
  - contradiction.
  - inversion Hnd as [|? ? Hk Hnd']; subst.
    destruct Hin as [E|Hin].
    + injection E as -> ->. rewrite String.eqb_refl. reflexivity.
    + destruct (String.eqb_spec k k') as [->|Hne].
      * exfalso. apply Hk. apply (in_map fst) in Hin. exact Hin.
      * apply IH; assumption.
Qed.

(** C10.  For each of the scenarios "baseline", "accelerated" and
    "delayed" and every year from 2024 to 2050: the active prices of the
    row are exactly the strictly positive prices of the countries for that
    year (the year entry is not among them); this list is not empty;
    [max] and [min] return its greatest and its least element, the least
    is positive, so the spread is computed by the division
    [max(active_prices) / min(active_prices)], not by the fallback 0; the
    [spread] cell of the returned data frame holds that ratio, and it is at
    least 1. *)
Theorem spread_is_ratio_of_active_prices (scenario : string) (Y : Z) :
  In scenario ["baseline"; "accelerated"; "delayed"] ->
  (2024 <= Y <= 2050)%Z ->
  let active :=
    active_prices (price_row (scenario_trajectories scenario) Y) in
  active
  = filter (Qlt_bool 0)
           (map (fun ca => country_price Y (snd ca))
                (scenario_trajectories scenario)) /\
  (forall v,
     In v active <->
     exists country a,
       get (scenario_trajectories scenario) country = Ok a /\
       v = country_price Y a /\ 0 < v) /\
  active <> [] /\
  exists df hi lo s,
    simulate_price_convergence scenario = Ok df /\
    maxQ active = Ok hi /\
    minQ active = Ok lo /\
    In hi active /\ In lo active /\
    (forall v, In v active -> lo <= v <= hi) /\
    0 < lo /\
    spread_of active = Ok (hi / lo) /\
    cell df Y "spread" = Ok s /\
    s == hi / lo /\
    1 <= s.
Proof.
  intros _ HY. cbv zeta. unfold simulate_price_convergence.
  destruct (scenario_keys_distinct scenario) as [Hnd Hyear].
  pose proof (active_prices_spec (scenario_trajectories scenario) Y Hnd Hyear)
    as Hact.
  split; [exact Hact|]. split.
  - intro v. rewrite Hact, filter_In, in_map_iff. split.
    + intros [[[c a] [Ev Hin]] Hpos]. cbn [snd] in Ev.
      exists c, a. split; [apply In_get; assumption|].
      split; [symmetry; exact Ev | apply Qlt_bool_iff; exact Hpos].
    + intros [c [a [Hget [Ev Hpos]]]]. split.
      * exists (c, a). split; [symmetry; exact Ev | apply get_In; exact Hget].
      * apply Qlt_bool_iff. exact Hpos.
  - destruct (spreads_agree_sound _ (spreads_agree_all scenario) Y)
      as [Hne [df [hi [lo [s [E [Ehi [Elo [Hlo [Esp [Ec [Hs H1]]]]]]]]]]]];
      [apply in_range2; lia|].
    split; [exact Hne|].
    destruct (maxQ_spec _ _ Ehi) as [Hhi_in Hhi].
    destruct (minQ_spec _ _ Elo) as [Hlo_in Hlo_le].
    exists df, hi, lo, s.
    split; [exact E|]. split; [exact Ehi|]. split; [exact Elo|].
    split; [exact Hhi_in|]. split; [exact Hlo_in|].
    split; [intros v Hv; split; [apply Hlo_le | apply Hhi]; exact Hv|].
    split; [exact Hlo|]. split; [exact Esp|]. split; [exact Ec|].
    split; [exact Hs | exact H1].
Qed.

Lemma spread_is_ratio_of_active_prices_witness :
  let active :=
    active_prices (price_row (scenario_trajectories "delayed") 2024) in
  active
  = filter (Qlt_bool 0)
           (map (fun ca => country_price 2024 (snd ca))
                (scenario_trajectories "delayed")) /\
  (forall v,
     In v active <->
     exists country a,
       get (scenario_trajectories "delayed") country = Ok a /\
       v = country_price 2024 a /\ 0 < v) /\
  active <> [] /\
  exists df hi lo s,
    simulate_price_convergence "delayed" = Ok df /\
    maxQ active = Ok hi /\
    minQ active = Ok lo /\
    In hi active /\ In lo active /\
    (forall v, In v active -> lo <= v <= hi) /\
    0 < lo /\
    spread_of active = Ok (hi / lo) /\
    cell df 2024 "spread" = Ok s /\
    s == hi / lo /\
    1 <= s.
Proof.
  apply (spread_is_ratio_of_active_prices "delayed" 2024).
  - right; right; left; reflexivity.
  - lia.
Defined.

(* ------------------------------------------------------------------ *)
(** ** Further properties of the liability engine *)

Lemma Qsum_app (xs ys : list Q) : Qsum (xs ++ ys) == Qsum xs + Qsum ys.
Proof.
  induction xs as [|x xs IH]; cbn [app Qsum].
  - ring.
  - rewrite IH. ring.
Qed.

Lemma range_succ (n : nat) :
  range (Z.of_nat (S n)) = (range (Z.of_nat n) ++ [Z.of_nat n])%list.
Proof.
  unfold range. rewrite !Nat2Z.id, seq_S, map_app. reflexivity.
Qed.

Lemma range_ge_1 (n : Z) : (1 <= n)%Z -> exists rest, range n = 0%Z :: rest.
Proof.
  intro H. unfold range.
  destruct (Z.to_nat n) as [|k] eqn:E; [lia|].
  simpl. eexists. reflexivity.
Qed.

Lemma get_of_In {V : Type} (d : list (string * V)) (k : string) :
  In k (map fst d) -> exists v, get d k = Ok v.
Proof.
  induction d as [|[k' v'] d IH]; simpl; intro H.
  - contradiction.
  - destruct (String.eqb k k') eqn:E.
    + exists v'. reflexivity.
    + destruct H as [H|H].
      * subst k'. rewrite String.eqb_refl in E. discriminate.
      * apply IH. exact H.
Qed.

Lemma get_not_In {V : Type} (d : list (string * V)) (k : string) :
  ~ In k (map fst d) -> get d k = Raise (KeyError k).
Proof.
  induction d as [|[k' v'] d IH]; simpl; intro H.
  - reflexivity.
  - destruct (String.eqb k k') eqn:E.
    + apply String.eqb_eq in E. exfalso. apply H. left. symmetry. exact E.
    + apply IH. intro Hin. apply H. right. exact Hin.
Qed.

(** The loop of the helper ends normally or with [ZeroDivisionError]. *)
Lemma helper_loop_outcome (ae p d : Q) (xs : list Z) (s : Q) :
  (exists v,
      for_each xs s
        (fun npv year =>
           term <- div (ae * (p * (103 # 100) ^ year) * 1000000)
                       ((1 + d) ^ year) ;;
           Ok (npv + term)) = Ok v)
  \/ for_each xs s
       (fun npv year =>
          term <- div (ae * (p * (103 # 100) ^ year) * 1000000)
                      ((1 + d) ^ year) ;;
          Ok (npv + term)) = Raise ZeroDivisionError.
Proof.
  revert s. induction xs as [|x xs IH]; intro s; cbn [for_each].
  - left. eexists. reflexivity.
  - unfold div at 1 3.
    destruct (Qeq_bool ((1 + d) ^ x) 0); cbn [bind].
    + right. reflexivity.
    + apply IH.
Qed.

(** X1.  [calculate_carbon_liability] raises [KeyError] exactly for a
    country that is not a key of [COUNTRY_DATA]: for such a country it
    raises [KeyError] on the country whatever the price, the horizon and
    the discount rate are, and for a key of the table it raises no
    [KeyError], whatever else happens. *)
Theorem liability_key_error_iff (country : string) (p : Q) (h : Z) (d : Q) :
  (~ In country (map fst COUNTRY_DATA) ->
   calculate_carbon_liability country p h d = Raise (KeyError country))
  /\
  (In country (map fst COUNTRY_DATA) ->
   forall k, calculate_carbon_liability country p h d <> Raise (KeyError k)).
Proof.
  split.
  - intro Hnot. unfold calculate_carbon_liability.
    rewrite (get_not_In COUNTRY_DATA country Hnot). reflexivity.
  - intros Hin k. unfold calculate_carbon_liability.
    destruct (get_of_In COUNTRY_DATA country Hin) as [data ->].
    cbn [bind].
    set (ae := inject_Z (capacity_kbpd data) * 1000 * (14 # 100) * 365
               / 1000000).
    destruct (helper_loop_outcome ae p d (range h) 0) as [[v E] | E];
      rewrite E; cbn [bind]; discriminate.
Qed.

Lemma liability_key_error_iff_witness :
  calculate_carbon_liability "Brunei" 30 25 (5 # 100)
  = Raise (KeyError "Brunei")
  /\ calculate_carbon_liability "Vietnam" 20 25 (-1)
     <> Raise (KeyError "Vietnam").
Proof.
  split.
  - apply (liability_key_error_iff "Brunei" 30 25 (5 # 100)).
    vm_compute. intro H.
    repeat (destruct H as [H|H]; [discriminate H|]). exact H.
  - apply (liability_key_error_iff "Vietnam" 20 25 (-1)).
    vm_compute. do 4 right. left. reflexivity.
Defined.

Lemma npv_sum_scale_price (emissions c p e d k : Q) (h : Z) :
  npv_sum emissions c (k * p) e d h == k * npv_sum emissions c p e d h.
Proof.
  unfold npv_sum. induction (range h) as [|t ts IH]; cbn [map Qsum].
  - ring.
  - rewrite IH. unfold npv_term, Qdiv. ring.
Qed.

(** X2.  The liability is proportional to the carbon price: multiplying
    the price by [k] multiplies the result by [k], for every country of
    the table, every horizon and every discount rate other than -1. *)
Theorem liability_linear_in_price
        (country : string) (p k : Q) (h : Z) (d : Q) :
  In country (map fst COUNTRY_DATA) -> ~ d == -1 ->
  exists v vk,
    calculate_carbon_liability country p h d = Ok v /\
    calculate_carbon_liability country (k * p) h d = Ok vk /\
    vk == k * v.
Proof.
  intros Hin Hd.
  destruct (get_of_In COUNTRY_DATA country Hin) as [data Hget].
  assert (Hnz : ~ 1 + d == 0) by lra.
  destruct (calculate_carbon_liability_value country data p h d Hget Hnz)
    as [v [E Hv]].
  destruct (calculate_carbon_liability_value country data (k * p) h d Hget Hnz)
    as [vk [Ek Hvk]].
  exists v, vk. split; [exact E|]. split; [exact Ek|].
  rewrite Hvk, Hv, npv_sum_scale_price. unfold Qdiv. ring.
Qed.

Lemma liability_linear_in_price_witness :
  exists v vk,
    calculate_carbon_liability "Indonesia" 25 25 (5 # 100) = Ok v /\
    calculate_carbon_liability "Indonesia" (2 * 25) 25 (5 # 100) = Ok vk /\
    vk == 2 * v.
Proof.
  apply (liability_linear_in_price "Indonesia" 25 2 25 (5 # 100)).
  - vm_compute. do 2 right. left. reflexivity.
  - discriminate.
Defined.

Lemma range_to_nat (h : Z) : range h = range (Z.of_nat (Z.to_nat h)).
Proof. unfold range. rewrite Nat2Z.id. reflexivity. Qed.

Lemma npv_sum_succ (emissions c p e d : Q) (n : nat) :
  npv_sum emissions c p e d (Z.of_nat (S n))
  == npv_sum emissions c p e d (Z.of_nat n)
     + npv_term emissions c p e d (Z.of_nat n).
Proof.
  unfold npv_sum. rewrite range_succ, map_app, Qsum_app.
  cbn [map Qsum]. ring.
Qed.

(** Every cash flow of the helper is the first-year cost times a power of
    the growth ratio. *)
Lemma npv_term_geometric (emissions p d : Q) (t : Z) :
  ~ 1 + d == 0 ->
  npv_term emissions 1 p (3 # 100) d t
  == emissions * p * growth_ratio d ^ t.
Proof.
  intro Hd. unfold npv_term, growth_ratio.
  rewrite Qdiv_power.
  assert (E : 1 + (3 # 100) == 103 # 100) by reflexivity.
  rewrite E.
  pose proof (Qpower_nonzero (1 + d) t Hd).
  field. assumption.
Qed.

Lemma npv_sum_geometric (emissions p d : Q) (n : nat) :
  ~ 1 + d == 0 ->
  npv_sum emissions 1 p (3 # 100) d (Z.of_nat n) * (1 - growth_ratio d)
  == emissions * p * (1 - growth_ratio d ^ Z.of_nat n).
Proof.
  intro Hd. induction n as [|n IH].
  - unfold npv_sum. simpl. ring.
  - rewrite npv_sum_succ, npv_term_geometric by exact Hd.
    rewrite Nat2Z.inj_succ.
    assert (E : growth_ratio d ^ Z.succ (Z.of_nat n)
                == growth_ratio d ^ Z.of_nat n * growth_ratio d).
    { unfold Z.succ. rewrite Qpower_plus' by lia. reflexivity. }
    rewrite E.
    set (r := growth_ratio d) in *. set (rn := r ^ Z.of_nat n) in *.
    set (S := npv_sum emissions 1 p (3 # 100) d (Z.of_nat n)) in *.
    setoid_replace ((S + emissions * p * rn) * (1 - r))
      with (S * (1 - r) + emissions * p * rn * (1 - r)) by ring.
    rewrite IH. ring.
Qed.

(** X3.  When the discount rate equals the 3% escalation the two cancel
    year by year: the liability is the horizon times the first-year cost,
    [years * annual emissions * price / 10^9]. *)
Theorem liability_at_escalation_rate
        (country : string) (data : country_record) (p : Q) (h : Z) :
  get COUNTRY_DATA country = Ok data -> (0 <= h)%Z ->
  returns (calculate_carbon_liability country p h (3 # 100))
          (inject_Z h * (annual_emissions_t data * p) / 1000000000).
Proof.
  intros Hget Hh.
  destruct (calculate_carbon_liability_value country data p h (3 # 100) Hget)
    as [v [E Hv]]; [discriminate|].
  rewrite E. cbn [returns]. rewrite Hv.
  assert (Hs : npv_sum (annual_emissions_t data) 1 p (3 # 100) (3 # 100) h
               == inject_Z h * (annual_emissions_t data * p)).
  { unfold npv_sum. rewrite range_to_nat.
    replace h with (Z.of_nat (Z.to_nat h)) at 2 by lia.
    fold (npv_sum (annual_emissions_t data) 1 p (3 # 100) (3 # 100)
                  (Z.of_nat (Z.to_nat h))).
    induction (Z.to_nat h) as [|n IH].
    - unfold npv_sum. simpl. ring.
    - rewrite npv_sum_succ, IH, Nat2Z.inj_succ.
      unfold Z.succ. rewrite inject_Z_plus.
      unfold npv_term.
      assert (Hnz : ~ (1 + (3 # 100)) ^ Z.of_nat n == 0)
        by (apply Qpower_nonzero; discriminate).
      field. exact Hnz. }
  rewrite Hs. reflexivity.
Qed.

Lemma liability_at_escalation_rate_witness :
  returns (calculate_carbon_liability "Singapore" 59 25 (3 # 100))
          (inject_Z 25 * (annual_emissions_t Singapore * 59) / 1000000000).
Proof.
  apply (liability_at_escalation_rate "Singapore" Singapore 59 25).
  - reflexivity.
  - lia.
Defined.

(** X4.  At any other discount rate the liability is the geometric sum in
    closed form: first-year cost times [(1 - r^years) / (1 - r)], with
    [r = 1.03 / (1 + discount_rate)]. *)
Theorem liability_closed_form
        (country : string) (data : country_record) (p : Q) (h : Z) (d : Q) :
  get COUNTRY_DATA country = Ok data ->
  ~ d == -1 -> ~ d == 3 # 100 -> (0 <= h)%Z ->
  returns (calculate_carbon_liability country p h d)
          (annual_emissions_t data * p
           * ((1 - growth_ratio d ^ h) / (1 - growth_ratio d))
           / 1000000000).
Proof.
  intros Hget Hd1 Hd3 Hh.
  assert (Hnz : ~ 1 + d == 0) by lra.
  destruct (calculate_carbon_liability_value country data p h d Hget Hnz)
    as [v [E Hv]].
  rewrite E. cbn [returns]. rewrite Hv.
  assert (Hr : ~ 1 - growth_ratio d == 0).
  { unfold growth_ratio. intro H1.
    assert (H2 : (103 # 100) / (1 + d) == 1) by lra.
    assert (H3 : 103 # 100 == 1 + d).
    { rewrite <- (Qmult_div_r (103 # 100) (1 + d)) at 1 by exact Hnz.
      rewrite H2. ring. }
    apply Hd3. lra. }
  pose proof (npv_sum_geometric (annual_emissions_t data) p d (Z.to_nat h) Hnz)
    as Hg.
  rewrite Z2Nat.id in Hg by exact Hh.
  set (S := npv_sum (annual_emissions_t data) 1 p (3 # 100) d h) in *.
  assert (HS : S == annual_emissions_t data * p
                    * ((1 - growth_ratio d ^ h) / (1 - growth_ratio d))).
  { setoid_replace S with (S * (1 - growth_ratio d) / (1 - growth_ratio d))
      by (field; exact Hr).
    rewrite Hg. field. exact Hr. }
  rewrite HS. reflexivity.
Qed.

Lemma liability_closed_form_witness :
  returns (calculate_carbon_liability "Thailand" 35 25 (5 # 100))
          (annual_emissions_t Thailand * 35
           * ((1 - growth_ratio (5 # 100) ^ 25) / (1 - growth_ratio (5 # 100)))
           / 1000000000).
Proof.
  apply (liability_closed_form "Thailand" Thailand 35 25 (5 # 100)).
  - reflexivity.
  - discriminate.
  - discriminate.
  - lia.
Defined.

Lemma npv_sum_mono_nat (emissions c p e d : Q) (n k : nat) :
  0 <= emissions -> 0 <= c -> 0 <= p -> -1 < e -> -1 < d ->
  npv_sum emissions c p e d (Z.of_nat n)
  <= npv_sum emissions c p e d (Z.of_nat (n + k)).
Proof.
  intros He Hc Hp Hesc Hd. induction k as [|k IH].
  - rewrite Nat.add_0_r. apply Qle_refl.
  - rewrite Nat.add_succ_r, npv_sum_succ.
    pose proof (npv_term_nonneg emissions c p e He Hc Hp Hesc d
                                (Z.of_nat (n + k)) Hd).
    lra.
Qed.

(** X5.  For a non-negative price and a discount rate above -1 the
    liability never decreases when the horizon grows. *)
Theorem liability_monotone_in_horizon
        (country : string) (p : Q) (h1 h2 : Z) (d : Q) :
  In country (map fst COUNTRY_DATA) ->
  0 <= p -> -1 < d -> (h1 <= h2)%Z ->
  exists v1 v2,
    calculate_carbon_liability country p h1 d = Ok v1 /\
    calculate_carbon_liability country p h2 d = Ok v2 /\
    v1 <= v2.
Proof.
  intros Hin Hp Hd Hh.
  destruct (get_of_In COUNTRY_DATA country Hin) as [data Hget].
  assert (Hnz : ~ 1 + d == 0) by lra.
  destruct (calculate_carbon_liability_value country data p h1 d Hget Hnz)
    as [v1 [E1 Hv1]].
  destruct (calculate_carbon_liability_value country data p h2 d Hget Hnz)
    as [v2 [E2 Hv2]].
  exists v1, v2. split; [exact E1|]. split; [exact E2|].
  rewrite Hv1, Hv2.
  assert (Hem : 0 < annual_emissions_t data)
    by (apply (annual_emissions_pos country); exact Hget).
  set (A := annual_emissions_t data) in *.
  assert (Hle : npv_sum A 1 p (3 # 100) d h1 <= npv_sum A 1 p (3 # 100) d h2).
  { unfold npv_sum. rewrite (range_to_nat h1), (range_to_nat h2).
    replace (Z.to_nat h2) with (Z.to_nat h1 + (Z.to_nat h2 - Z.to_nat h1))%nat
      by lia.
    apply (npv_sum_mono_nat A 1 p (3 # 100) d); lra. }
  apply Qle_shift_div_l; [reflexivity|].
  setoid_replace (npv_sum A 1 p (3 # 100) d h1 / 1000000000 * 1000000000)
    with (npv_sum A 1 p (3 # 100) d h1) by field.
  exact Hle.
Qed.

Lemma liability_monotone_in_horizon_witness :
  exists v1 v2,
    calculate_carbon_liability "Vietnam" 20 10 (5 # 100) = Ok v1 /\
    calculate_carbon_liability "Vietnam" 20 30 (5 # 100) = Ok v2 /\
    v1 <= v2.
Proof.
  apply (liability_monotone_in_horizon "Vietnam" 20 10 30 (5 # 100)).
  - vm_compute. do 4 right. left. reflexivity.
  - discriminate.
  - reflexivity.
  - lia.
Defined.

(* ------------------------------------------------------------------ *)
(** ** The yearly breakdown of the liability calculator tab *)

Lemma tab2_step_snd data p e c d (xs : list Z) (st : Q * list yearly_row) :
  snd (fold_left (tab2_step data p e c d) xs st)
  = (snd st ++ map (tab2_row data p e c d) xs)%list.
Proof.
  revert st. induction xs as [|x xs IH]; intro st; cbn [fold_left map].
  - rewrite app_nil_r. reflexivity.
  - rewrite IH. cbn [tab2_step snd]. rewrite <- app_assoc. reflexivity.
Qed.

Lemma tab2_row_discounted data p e c d (t : Z) :
  ~ 1 + d == 0 ->
  Discounted_Cost_M (tab2_row data p e c d t) * 1000000
  == npv_term (annual_emissions_t data) (c / 100) p (e / 100) d t.
Proof.
  intro Hd. cbn [tab2_row Discounted_Cost_M].
  unfold npv_term, annual_emissions_t.
  pose proof (Qpower_nonzero (1 + d) t Hd). field. assumption.
Qed.

Lemma Qsum_scale (k : Q) (xs : list Q) :
  Qsum (map (fun x => x * k) xs) == Qsum xs * k.
Proof.
  induction xs as [|x xs IH]; cbn [map Qsum].
  - ring.
  - rewrite IH. ring.
Qed.

Lemma main_tab2_npv_rows (data : country_record) (p e c : Q) (h : Z) (d : Q) :
  ~ 1 + d == 0 ->
  exists npv,
    main_tab2_npv data p e c h d
    = Ok (npv, map (tab2_row data p e c d) (range h)) /\
    npv == npv_sum (annual_emissions_t data) (c / 100) p (e / 100) d h.
Proof.
  intro Hd. unfold main_tab2_npv.
  rewrite (for_each_pure _ (tab2_step data p e c d)).
  - destruct (fold_left (tab2_step data p e c d) (range h) (0, []))
      as [npv rows] eqn:E.
    exists npv.
    assert (Hrows : rows = map (tab2_row data p e c d) (range h)).
    { change rows with (snd (npv, rows)). rewrite <- E.
      rewrite tab2_step_snd. reflexivity. }
    rewrite Hrows. split; [reflexivity|].
    change npv with (fst (npv, rows)). rewrite <- E.
    rewrite tab2_step_fst by exact Hd. cbn [fst]. unfold npv_sum. ring.
  - intros [npv rows] t _.
    rewrite div_ok by (apply Qpower_nonzero; exact Hd).
    reflexivity.
Qed.

(** X6.  The yearly breakdown of the liability calculator adds up to the
    NPV: for a discount rate other than -1 the loop returns one row per
    year, for the years 2025, 2026, ..., and the discounted costs of the
    rows (in millions) sum to the NPV (in dollars) divided by 10^6. *)
Theorem breakdown_sums_to_npv
        (data : country_record) (p e c : Q) (h : Z) (d : Q) :
  ~ d == -1 ->
  exists npv rows,
    main_tab2_npv data p e c h d = Ok (npv, rows) /\
    List.length rows = Z.to_nat h /\
    map Year rows = map (fun t => (2025 + t)%Z) (range h) /\
    Qsum (map Discounted_Cost_M rows) * 1000000 == npv.
Proof.
  intro Hd1. assert (Hd : ~ 1 + d == 0) by lra.
  destruct (main_tab2_npv_rows data p e c h d Hd) as [npv [E Hnpv]].
  exists npv, (map (tab2_row data p e c d) (range h)).
  split; [exact E|]. split; [|split].
  - rewrite length_map. unfold range. rewrite length_map, length_seq.
    reflexivity.
  - rewrite map_map. reflexivity.
  - rewrite Hnpv. unfold npv_sum.
    rewrite <- Qsum_scale, !map_map.
    apply Qsum_ext_eq. intros t _.
    apply tab2_row_discounted. exact Hd.
Qed.

Lemma breakdown_sums_to_npv_witness :
  exists npv rows,
    main_tab2_npv Singapore 59 3 80 25 (5 # 100) = Ok (npv, rows) /\
    List.length rows = Z.to_nat 25 /\
    map Year rows = map (fun t => (2025 + t)%Z) (range 25) /\
    Qsum (map Discounted_Cost_M rows) * 1000000 == npv.
Proof.
  apply (breakdown_sums_to_npv Singapore 59 3 80 25 (5 # 100)).
  discriminate.
Defined.

(** X7.  With a horizon of one year the calculator returns, at every
    discount rate (also -1), a single row for 2025 whose price is the base
    price and whose nominal and discounted costs are equal: the NPV is the
    unescalated, undiscounted first-year cost
    [annual emissions * coverage/100 * base price]. *)
Theorem breakdown_single_year
        (data : country_record) (p e c d : Q) :
  exists npv row,
    main_tab2_npv data p e c 1 d = Ok (npv, [row]) /\
    Year row = 2025%Z /\
    Carbon_Price row == p /\
    Discounted_Cost_M row == Annual_Cost_M row /\
    npv == annual_emissions_t data * (c / 100) * p /\
    npv == Annual_Cost_M row * 1000000.
Proof.
  unfold main_tab2_npv. change (range 1) with [0%Z]. cbn [for_each].
  change ((1 + d) ^ 0) with 1. rewrite div_ok by discriminate.
  cbn [bind app]. do 2 eexists. split; [reflexivity|].
  cbn [Year Carbon_Price Discounted_Cost_M Annual_Cost_M].
  change ((1 + e / 100) ^ 0) with 1.
  unfold annual_emissions_t.
  repeat split; try reflexivity; field.
Qed.

Lemma npv_sum_coverage (emissions c p e d : Q) (h : Z) :
  npv_sum emissions (c / 100) p e d h
  == c / 100 * npv_sum emissions (100 / 100) p e d h.
Proof.
  unfold npv_sum. induction (range h) as [|t ts IH]; cbn [map Qsum].
  - ring.
  - rewrite IH. unfold npv_term.
    assert (E : 100 / 100 == 1) by reflexivity.
    rewrite E. unfold Qdiv. ring.
Qed.

(** X8.  The NPV of the calculator is proportional to the coverage: at
    coverage [c] percent it is [c/100] times the NPV at full coverage, so
    coverage 0 gives 0. *)
Theorem npv_proportional_to_coverage
        (data : country_record) (p e c : Q) (h : Z) (d : Q) :
  ~ d == -1 ->
  exists npv full rows rows',
    main_tab2_npv data p e c h d = Ok (npv, rows) /\
    main_tab2_npv data p e 100 h d = Ok (full, rows') /\
    npv == c / 100 * full /\
    (c == 0 -> npv == 0).
Proof.
  intro Hd1. assert (Hd : ~ 1 + d == 0) by lra.
  destruct (main_tab2_npv_rows data p e c h d Hd) as [npv [E Hnpv]].
  destruct (main_tab2_npv_rows data p e 100 h d Hd) as [full [E' Hfull]].
  do 4 eexists. split; [exact E|]. split; [exact E'|].
  assert (Hprop : npv == c / 100 * full).
  { rewrite Hnpv, Hfull. apply npv_sum_coverage. }
  split; [exact Hprop|].
  intro Hc. rewrite Hprop, Hc. unfold Qdiv. ring.
Qed.

Lemma npv_proportional_to_coverage_witness :
  exists npv full rows rows',
    main_tab2_npv Malaysia 15 3 30 25 (5 # 100) = Ok (npv, rows) /\
    main_tab2_npv Malaysia 15 3 100 25 (5 # 100) = Ok (full, rows') /\
    npv == 30 / 100 * full /\
    (30 == 0 -> npv == 0).
Proof.
  apply (npv_proportional_to_coverage Malaysia 15 3 30 25 (5 # 100)).
  discriminate.
Defined.

(** X9.  The helper is the calculator at fixed settings: for a country of
    the table and a discount rate other than -1,
    [calculate_carbon_liability] times 10^9 is the NPV of the calculator
    loop at escalation 3% and coverage 100%. *)
Theorem helper_is_calculator_at_full_coverage
        (country : string) (data : country_record) (p : Q) (h : Z) (d : Q) :
  get COUNTRY_DATA country = Ok data -> ~ d == -1 ->
  exists v npv rows,
    calculate_carbon_liability country p h d = Ok v /\
    main_tab2_npv data p 3 100 h d = Ok (npv, rows) /\
    v * 1000000000 == npv.
Proof.
  intros Hget Hd1. assert (Hd : ~ 1 + d == 0) by lra.
  destruct (calculate_carbon_liability_value country data p h d Hget Hd)
    as [v [E Hv]].
  destruct (main_tab2_npv_rows data p 3 100 h d Hd) as [npv [E' Hnpv]].
  do 3 eexists. split; [exact E|]. split; [exact E'|].
  rewrite Hv, Hnpv.
  assert (Hs : npv_sum (annual_emissions_t data) (100 / 100) p (3 / 100) d h
               == npv_sum (annual_emissions_t data) 1 p (3 # 100) d h).
  { unfold npv_sum. apply Qsum_ext_eq. intros t _. unfold npv_term.
    assert (E1 : 100 / 100 == 1) by reflexivity.
    assert (E2 : 1 + 3 / 100 == 1 + (3 # 100)) by reflexivity.
    rewrite E1, E2. reflexivity. }
  rewrite Hs. field.
Qed.

Lemma helper_is_calculator_at_full_coverage_witness :
  exists v npv rows,
    calculate_carbon_liability "Singapore" 59 25 (5 # 100) = Ok v /\
    main_tab2_npv Singapore 59 3 100 25 (5 # 100) = Ok (npv, rows) /\
    v * 1000000000 == npv.
Proof.
  apply (helper_is_calculator_at_full_coverage
           "Singapore" Singapore 59 25 (5 # 100)).
  - reflexivity.
  - discriminate.
Defined.

(* ------------------------------------------------------------------ *)
(** ** Regional liability comparison *)

Lemma npv_sum_pos (emissions c p e d : Q) (h : Z) :
  0 < emissions -> 0 < c -> 0 < p -> -1 < e -> -1 < d -> (1 <= h)%Z ->
  0 < npv_sum emissions c p e d h.
Proof.
  intros He Hc Hp Hesc Hd Hh. unfold npv_sum.
  destruct (range_ge_1 h Hh) as [rest Hr]. rewrite Hr. cbn [map Qsum].
  assert (H0 : npv_term emissions c p e d 0 == emissions * c * p).
  { unfold npv_term. simpl. field. }
  assert (Hrest : 0 <= Qsum (map (npv_term emissions c p e d) rest)).
  { apply Qsum_nonneg. intros t _. apply npv_term_nonneg; lra. }
  assert (0 < emissions * c) by nra.
  assert (0 < emissions * c * p) by nra.
  lra.
Qed.

Lemma comparison_price_pos (data : country_record) :
  0 < comparison_price data.
Proof.
  unfold comparison_price.
  destruct (0 <? carbon_price_2024 data)%Z eqn:E; [|reflexivity].
  apply Z.ltb_lt in E. change 0 with (inject_Z 0). rewrite <- Zlt_Qlt.
  exact E.
Qed.

Lemma comparison_entry (country : string) (data : country_record)
      (h : Z) (d : Q) :
  get COUNTRY_DATA country = Ok data -> -1 < d ->
  exists v,
    calculate_carbon_liability country (comparison_price data) h d = Ok v /\
    0 <= v /\ ((1 <= h)%Z -> 0 < v).
Proof.
  intros Hget Hd.
  destruct (calculate_carbon_liability_value
              country data (comparison_price data) h d Hget)
    as [v [E Hv]]; [lra|].
  exists v. split; [exact E|].
  pose proof (annual_emissions_pos country data Hget) as Hem.
  pose proof (comparison_price_pos data) as Hp.
  split.
  - rewrite Hv. apply billions_nonneg. apply npv_sum_nonneg; lra.
  - intro Hh. rewrite Hv.
    apply Qlt_shift_div_l; [reflexivity|].
    setoid_replace (0 * 1000000000) with 0 by ring.
    apply npv_sum_pos; try lra. exact Hh.
Qed.

Lemma exposure_bounds (v own : Q) :
  0 <= v -> 0 <= own <= 1 -> 0 <= v * own <= v.
Proof. intros Hv [H0 H1]. split; nra. Qed.

(** X10.  For every horizon and every discount rate above -1 the regional
    comparison loop raises nothing and gives one row per country, in the
    order of [COUNTRY_DATA]; in every row the government exposure lies
    between 0 and the liability, and for a horizon of at least one year
    every liability is positive, Malaysia's too, because a country without
    a carbon price is priced at the floor 15. *)
Theorem regional_comparison_rows (h : Z) (d : Q) :
  -1 < d ->
  exists rows,
    regional_comparison h d = Ok rows /\
    map Country rows
    = ["Singapore"; "Thailand"; "Indonesia"; "Malaysia"; "Vietnam"] /\
    Forall (fun r => 0 <= Govt_Exposure_B r <= Liability_B r) rows /\
    ((1 <= h)%Z -> Forall (fun r => 0 < Liability_B r) rows) /\
    comparison_price Malaysia == 15.
Proof.
  intro Hd. unfold regional_comparison, regional_comparison_on, COUNTRY_DATA.
  cbn [for_each].
  destruct (comparison_entry "Singapore" Singapore h d eq_refl Hd)
    as [v1 [E1 [N1 P1]]].
  destruct (comparison_entry "Thailand" Thailand h d eq_refl Hd)
    as [v2 [E2 [N2 P2]]].
  destruct (comparison_entry "Indonesia" Indonesia h d eq_refl Hd)
    as [v3 [E3 [N3 P3]]].
  destruct (comparison_entry "Malaysia" Malaysia h d eq_refl Hd)
    as [v4 [E4 [N4 P4]]].
  destruct (comparison_entry "Vietnam" Vietnam h d eq_refl Hd)
    as [v5 [E5 [N5 P5]]].
  rewrite E1. cbn [bind for_each]. rewrite E2. cbn [bind for_each].
  rewrite E3. cbn [bind for_each]. rewrite E4. cbn [bind for_each].
  rewrite E5. cbn [bind for_each app].
  eexists. split; [reflexivity|]. split; [reflexivity|].
  split; [|split; [|reflexivity]].
  - repeat constructor; cbn [Govt_Exposure_B Liability_B];
      apply exposure_bounds; try assumption; split; discriminate.
  - intro Hh. repeat constructor; cbn [Liability_B]; auto.
Qed.

Lemma regional_comparison_rows_witness :
  exists rows,
    regional_comparison 25 (5 # 100) = Ok rows /\
    map Country rows
    = ["Singapore"; "Thailand"; "Indonesia"; "Malaysia"; "Vietnam"] /\
    Forall (fun r => 0 <= Govt_Exposure_B r <= Liability_B r) rows /\
    ((1 <= 25)%Z -> Forall (fun r => 0 < Liability_B r) rows) /\
    comparison_price Malaysia == 15.
Proof.
  apply (regional_comparison_rows 25 (5 # 100)). reflexivity.
Defined.

(* ------------------------------------------------------------------ *)
(** ** Price trajectories of the policy divergence tab *)

Lemma tab3_price_upto_2030 (data : country_record) (Y : Z) :
  (Y <= 2030)%Z ->
  tab3_price data Y
  == comparison_price data
     + (inject_Z (carbon_price_2030 data) - comparison_price data)
       * (inject_Z (Y - 2024) / 6).
Proof.
  intro H. unfold tab3_price. apply Z.leb_le in H. rewrite H. reflexivity.
Qed.

Lemma tab3_price_after_2030 (data : country_record) (Y : Z) :
  (2030 < Y)%Z ->
  tab3_price data Y
  == inject_Z (carbon_price_2030 data) * (103 # 100) ^ (Y - 2030).
Proof.
  intro H. unfold tab3_price. apply Z.leb_gt in H. rewrite H. reflexivity.
Qed.

Lemma tab3_price_2030 (data : country_record) :
  tab3_price data 2030 == inject_Z (carbon_price_2030 data).
Proof.
  rewrite tab3_price_upto_2030 by lia.
  change (inject_Z (2030 - 2024) / 6) with (6 / 6). field.
Qed.

(** X11.  The trajectory of the policy divergence tab starts in 2024 at
    the current price (15 for a country without one), reaches the 2030
    target in 2030, and from 2030 on grows by exactly 3% a year. *)
Theorem tab3_anchors_and_growth (data : country_record) (Y : Z) :
  tab3_price data 2024 == comparison_price data /\
  tab3_price data 2030 == inject_Z (carbon_price_2030 data) /\
  ((2030 <= Y)%Z ->
   tab3_price data (Y + 1) == (103 # 100) * tab3_price data Y).
Proof.
  split; [|split].
  - rewrite tab3_price_upto_2030 by lia.
    change (inject_Z (2024 - 2024) / 6) with (0 / 6). field.
  - apply tab3_price_2030.
  - intro HY. rewrite (tab3_price_after_2030 data (Y + 1)) by lia.
    destruct (Z.eq_dec Y 2030) as [->|Hne].
    + rewrite tab3_price_2030. change ((103 # 100) ^ (2030 + 1 - 2030))
        with (103 # 100). ring.
    + rewrite (tab3_price_after_2030 data Y) by lia.
      replace (Y + 1 - 2030)%Z with ((Y - 2030) + 1)%Z by lia.
      rewrite Qpower_plus' by lia.
      change ((103 # 100) ^ 1) with (103 # 100). ring.
Qed.

Lemma tab3_anchors_and_growth_witness :
  tab3_price Malaysia (2040 + 1) == (103 # 100) * tab3_price Malaysia 2040.
Proof.
  destruct (tab3_anchors_and_growth Malaysia 2040) as [_ [_ H]].
  apply H. lia.
Defined.

Lemma country_targets (country : string) (data : country_record) :
  get COUNTRY_DATA country = Ok data ->
  comparison_price data <= inject_Z (carbon_price_2030 data) /\
  0 < inject_Z (carbon_price_2030 data).
Proof.
  intro H. apply get_In in H. unfold COUNTRY_DATA in H. simpl in H.
  repeat (destruct H as [H|H];
          [injection H as _ <-; split; [discriminate | reflexivity]|]).
  contradiction.
Qed.

(** X12.  For every country of [COUNTRY_DATA] the trajectory of the policy
    divergence tab never falls from one year to a later one: it rises
    linearly (or stays flat, for Malaysia at the floor 15) up to 2030 and
    compounds afterwards. *)
Theorem tab3_price_monotone
        (country : string) (data : country_record) (Y1 Y2 : Z) :
  get COUNTRY_DATA country = Ok data -> (Y1 <= Y2)%Z ->
  tab3_price data Y1 <= tab3_price data Y2.
Proof.
  intros Hget HY.
  destruct (country_targets country data Hget) as [Hbt Ht].
  set (b := comparison_price data) in *.
  set (t := inject_Z (carbon_price_2030 data)) in *.
  assert (Hlin : forall Y, (Y <= 2030)%Z -> tab3_price data Y <= t).
  { intros Y H. rewrite tab3_price_upto_2030 by exact H. fold b t.
    assert (inject_Z (Y - 2024) <= 6).
    { change 6 with (inject_Z 6). rewrite <- Zle_Qle. lia. }
    set (n := inject_Z (Y - 2024)) in *.
    setoid_replace (b + (t - b) * (n / 6))
      with (t - (t - b) * (6 - n) * (1 # 6)) by field.
    assert (0 <= (t - b) * (6 - n)) by nra. lra. }
  assert (Hexp : forall Y, (2030 < Y)%Z -> t <= tab3_price data Y).
  { intros Y H. rewrite tab3_price_after_2030 by exact H. fold t.
    assert (1 <= (103 # 100) ^ (Y - 2030))
      by (apply Qpower_1_le; [discriminate | lia]).
    nra. }
  destruct (Z.le_gt_cases Y2 2030) as [H2|H2].
  - rewrite !tab3_price_upto_2030 by lia. fold b t.
    assert (inject_Z (Y1 - 2024) <= inject_Z (Y2 - 2024))
      by (rewrite <- Zle_Qle; lia).
    set (n1 := inject_Z (Y1 - 2024)) in *.
    set (n2 := inject_Z (Y2 - 2024)) in *.
    assert (Hd : b + (t - b) * (n2 / 6) - (b + (t - b) * (n1 / 6))
                 == (t - b) * (n2 - n1) * (1 # 6)) by field.
    assert (0 <= (t - b) * (n2 - n1)) by nra. lra.
  - destruct (Z.le_gt_cases Y1 2030) as [H1|H1].
    + apply Qle_trans with t; [apply Hlin; exact H1 | apply Hexp; exact H2].
    + rewrite !tab3_price_after_2030 by lia. fold t.
      assert ((103 # 100) ^ (Y1 - 2030) <= (103 # 100) ^ (Y2 - 2030))
        by (apply Qpower_le_compat_l; [lia | discriminate]).
      nra.
Qed.

Lemma tab3_price_monotone_witness :
  tab3_price Vietnam 2029 <= tab3_price Vietnam 2041.
Proof.
  apply (tab3_price_monotone "Vietnam" Vietnam 2029 2041).
  - reflexivity.
  - lia.
Defined.

(** X13.  The two price simulators agree where they should: for
    Singapore, Thailand, Indonesia and Vietnam the trajectory of the
    policy divergence tab equals the baseline convergence price in every
    year from 2024 to 2030.  For Malaysia they differ from the start: 15
    (the floor) against 0. *)
Theorem tab3_agrees_with_baseline_until_2030
        (country : string) (data : country_record) (a : anchors) (Y : Z) :
  get COUNTRY_DATA country = Ok data ->
  get (scenario_trajectories "baseline") country = Ok a ->
  (2024 <= Y <= 2030)%Z ->
  (country <> "Malaysia" -> tab3_price data Y == country_price Y a) /\
  (country = "Malaysia" ->
   tab3_price data 2024 == 15 /\ country_price 2024 a == 0).
Proof.
  intros Hd Ha HY.
  change (scenario_trajectories "baseline") with trajectories in Ha.
  assert (Hcases :
            (country = "Malaysia" /\ data = Malaysia
             /\ a = {| p2024 := 0; p2030 := 15; p2045 := 70 |})
            \/ (country <> "Malaysia"
                /\ comparison_price data == p2024 a
                /\ inject_Z (carbon_price_2030 data) == p2030 a)).
  { apply get_In in Hd. apply get_In in Ha.
    unfold COUNTRY_DATA in Hd. unfold trajectories in Ha.
    cbn [In] in Hd, Ha.
    repeat (destruct Hd as [Hd|Hd]; [injection Hd as <- <-|]);
      try contradiction;
      repeat (destruct Ha as [Ha|Ha];
              [first [discriminate Ha | injection Ha as <-]|]);
      try contradiction;
      first [ left; repeat split; reflexivity
            | right; split; [discriminate | split; reflexivity] ]. }
  destruct Hcases as [[-> [-> ->]] | [Hne [Hb Ht]]].
  - split; [intro H; contradiction|]. intros _. split; reflexivity.
  - split; [|intro H; contradiction]. intros _.
    rewrite tab3_price_upto_2030 by lia. rewrite Hb, Ht.
    unfold country_price.
    destruct (Z.leb_spec Y 2024) as [L|L].
    + assert (Y = 2024%Z) by lia. subst Y.
      change (inject_Z (2024 - 2024) / 6) with (0 / 6). field.
    + destruct (Z.leb_spec Y 2030) as [L2|L2]; [reflexivity | lia].
Qed.

Lemma tab3_agrees_with_baseline_until_2030_witness :
  tab3_price Thailand 2027
  == country_price 2027 {| p2024 := 35; p2030 := 50; p2045 := 85 |}.
Proof.
  destruct (tab3_agrees_with_baseline_until_2030
              "Thailand" Thailand
              {| p2024 := 35; p2030 := 50; p2045 := 85 |} 2027
              eq_refl eq_refl)
    as [H _].
  - lia.
  - apply H. discriminate.
Defined.

(* ------------------------------------------------------------------ *)
(** ** Divergence metrics over any table *)

Lemma fold_max_spec (xs : list Z) (x : Z) :
  let m := fold_left (fun m y => if (m <? y)%Z then y else m) xs x in
  In m (x :: xs) /\ Forall (fun y => (y <= m)%Z) (x :: xs).
Proof.
  revert x. induction xs as [|y ys IH]; intro x; cbn [fold_left].
  - split; [left; reflexivity | repeat constructor; lia].
  - specialize (IH (if (x <? y)%Z then y else x)).
    cbv zeta in IH. destruct IH as [Hin Hall].
    inversion Hall as [|? ? Hhd Htl]; subst.
    destruct (Z.ltb_spec x y) as [L|L].
    + split.
      * destruct Hin as [<-|Hin]; [right; left; reflexivity|].
        right; right; exact Hin.
      * constructor; [lia|]. constructor; [exact Hhd | exact Htl].
    + split.
      * destruct Hin as [<-|Hin]; [left; reflexivity|].
        right; right; exact Hin.
      * constructor; [exact Hhd|]. constructor; [lia | exact Htl].
Qed.

Lemma fold_min_spec (xs : list Z) (x : Z) :
  let m := fold_left (fun m y => if (y <? m)%Z then y else m) xs x in
  In m (x :: xs) /\ Forall (fun y => (m <= y)%Z) (x :: xs).
Proof.
  revert x. induction xs as [|y ys IH]; intro x; cbn [fold_left].
  - split; [left; reflexivity | repeat constructor; lia].
  - specialize (IH (if (y <? x)%Z then y else x)).
    cbv zeta in IH. destruct IH as [Hin Hall].
    inversion Hall as [|? ? Hhd Htl]; subst.
    destruct (Z.ltb_spec y x) as [L|L].
    + split.
      * destruct Hin as [<-|Hin]; [right; left; reflexivity|].
        right; right; exact Hin.
      * constructor; [lia|]. constructor; [exact Hhd | exact Htl].
    + split.
      * destruct Hin as [<-|Hin]; [left; reflexivity|].
        right; right; exact Hin.
      * constructor; [exact Hhd|]. constructor; [lia | exact Htl].
Qed.

Lemma maxZ_spec (xs : list Z) :
  xs <> [] ->
  exists m, maxZ xs = Ok m /\ In m xs /\ Forall (fun y => (y <= m)%Z) xs.
Proof.
  destruct xs as [|x xs]; [contradiction|]. intros _.
  eexists. split; [reflexivity|]. apply fold_max_spec.
Qed.

Lemma minZ_spec (xs : list Z) :
  xs <> [] ->
  exists m, minZ xs = Ok m /\ In m xs /\ Forall (fun y => (m <= y)%Z) xs.
Proof.
  destruct xs as [|x xs]; [contradiction|]. intros _.
  eexists. split; [reflexivity|]. apply fold_min_spec.
Qed.

Lemma filter_all {A : Type} (f : A -> bool) (xs : list A) :
  Forall (fun x => f x = true) xs -> filter f xs = xs.
Proof.
  induction 1 as [|x xs Hx _ IH]; cbn [filter]; [reflexivity|].
  rewrite Hx, IH. reflexivity.
Qed.

(** X14.  On any table in which some entity has a positive current price,
    [get_divergence_metrics] returns: min_price and max_price are the
    least and the greatest positive current price of the table, the price
    spread is their ratio and is at least 1, and the timeline spread is
    not negative. *)
Theorem divergence_metrics_bounds
        (table : list (string * country_record)) :
  (exists d, In d (values table) /\ (0 < carbon_price_2024 d)%Z) ->
  exists m q,
    get_divergence_metrics_on table = Ok m /\
    price_spread m = Finite q /\
    q == inject_Z (max_price m) / inject_Z (min_price m) /\
    1 <= q /\
    (0 <= timeline_spread m)%Z /\
    (0 < min_price m <= max_price m)%Z /\
    (forall d, In d (values table) -> (0 < carbon_price_2024 d)%Z ->
               (min_price m <= carbon_price_2024 d <= max_price m)%Z) /\
    (exists lo hi, In lo (values table) /\ In hi (values table) /\
                   carbon_price_2024 lo = min_price m /\
                   carbon_price_2024 hi = max_price m).
Proof.
  intros [d0 [Hd0 Hp0]]. unfold get_divergence_metrics_on.
  set (pos := filter (fun d => (0 <? carbon_price_2024 d)%Z) (values table)).
  set (prices := map carbon_price_2024 pos).
  set (years := map ets_launch_year (values table)).
  assert (Hpos0 : In d0 pos).
  { apply filter_In. split; [exact Hd0 | apply Z.ltb_lt; exact Hp0]. }
  assert (Hprices : prices <> []).
  { intro E. assert (Hin : In (carbon_price_2024 d0) prices)
      by (apply in_map; exact Hpos0).
    rewrite E in Hin. contradiction. }
  assert (Hyears : years <> []).
  { intro E. assert (Hin : In (ets_launch_year d0) years)
      by (apply in_map; exact Hd0).
    rewrite E in Hin. contradiction. }
  assert (Hall : Forall (fun x => (0 < x)%Z) prices)
    by apply positive_prices_Forall.
  destruct (maxZ_spec years Hyears) as [ymax [Eymax [Hymax_in Hymax]]].
  destruct (minZ_spec years Hyears) as [ymin [Eymin [Hymin_in Hymin]]].
  destruct (maxZ_spec prices Hprices) as [hi [Ehi [Hhi_in Hhi]]].
  destruct (minZ_spec prices Hprices) as [lo [Elo [Hlo_in Hlo]]].
  assert (Hlo_pos : (0 < lo)%Z).
  { rewrite Forall_forall in Hall. apply Hall. exact Hlo_in. }
  assert (Hlohi : (lo <= hi)%Z).
  { rewrite Forall_forall in Hhi. apply Hhi. exact Hlo_in. }
  assert (Hfilter : filter (fun p => (0 <? p)%Z) prices = prices).
  { apply filter_all. apply Forall_forall. intros x Hx.
    rewrite Forall_forall in Hall. apply Z.ltb_lt. apply Hall. exact Hx. }
  assert (Hltb : (0 <? lo)%Z = true) by (apply Z.ltb_lt; exact Hlo_pos).
  assert (Hnz : ~ inject_Z lo == 0).
  { change 0 with (inject_Z 0). rewrite inject_Z_injective. lia. }
  rewrite Hfilter, Eymax, Eymin, Elo, Ehi. cbn [bind].
  rewrite Hltb, (div_ok _ _ Hnz). cbn [bind].
  do 2 eexists. split; [reflexivity|].
  cbn [price_spread max_price min_price timeline_spread].
  split; [reflexivity|]. split; [reflexivity|].
  assert (Hqlo : 0 < inject_Z lo).
  { change 0 with (inject_Z 0). rewrite <- Zlt_Qlt. exact Hlo_pos. }
  split.
  { apply Qle_shift_div_l; [exact Hqlo|]. rewrite Qmult_1_l.
    rewrite <- Zle_Qle. exact Hlohi. }
  split.
  { rewrite Forall_forall in Hymax. specialize (Hymax ymin Hymin_in). lia. }
  split; [lia|].
  split.
  { intros d Hd Hp.
    assert (Hin : In (carbon_price_2024 d) prices).
    { apply in_map. apply filter_In. split; [exact Hd|].
      apply Z.ltb_lt. exact Hp. }
    rewrite Forall_forall in Hhi, Hlo.
    split; [apply Hlo | apply Hhi]; exact Hin. }
  apply in_map_iff in Hlo_in. destruct Hlo_in as [dlo [Elo' Hdlo]].
  apply in_map_iff in Hhi_in. destruct Hhi_in as [dhi [Ehi' Hdhi]].
  apply filter_In in Hdlo. apply filter_In in Hdhi.
  exists dlo, dhi. repeat split; tauto.
Qed.

Lemma divergence_metrics_bounds_witness :
  exists m q,
    get_divergence_metrics_on COUNTRY_DATA = Ok m /\
    price_spread m = Finite q /\
    1 <= q /\
    (0 < min_price m <= max_price m)%Z.
Proof.
  destruct (divergence_metrics_bounds COUNTRY_DATA)
    as [m [q [E [Hs [_ [Hq [_ [Hp _]]]]]]]].
  - exists Singapore. split; [left; reflexivity | reflexivity].
  - exists m, q. repeat split; try assumption; apply Hp.
Defined.

(* ------------------------------------------------------------------ *)
(** ** Integration ROI over any investment table *)

Lemma calculate_integration_roi_on_embedded :
  calculate_integration_roi
  = calculate_integration_roi_on INVESTMENT_REQUIREMENTS.
Proof. reflexivity. Qed.

Lemma roi_on_value (table : list investment) :
  sumZ (map amount_m table) <> 0%Z ->
  calculate_integration_roi_on table
  = Ok {| total_investment := sumZ (map amount_m table);
          total_benefits := 880;
          benefit_cost_ratio :=
            880 / inject_Z (sumZ (map amount_m table));
          annual_savings := 68;
          payback_years := inject_Z (sumZ (map amount_m table)) / 68 |}.
Proof.
  intro Hne. unfold calculate_integration_roi_on. cbv zeta.
  assert (Hnz : ~ inject_Z (sumZ (map amount_m table)) == 0).
  { change 0 with (inject_Z 0). rewrite inject_Z_injective. exact Hne. }
  rewrite (div_ok _ _ Hnz). cbn [bind].
  rewrite div_ok by discriminate. reflexivity.
Qed.

(** X15.  On any investment table: a total investment of 0 (an empty
    table, say) makes [calculate_integration_roi] raise
    [ZeroDivisionError]; otherwise it returns, the benefits are 880
    whatever the table, the ratio times the investment gives the benefits
    back, the payback times the 68 of yearly savings gives the investment
    back, and so ratio times payback is always 880/68. *)
Theorem roi_on_any_table (table : list investment) :
  (sumZ (map amount_m table) = 0%Z ->
   calculate_integration_roi_on table = Raise ZeroDivisionError)
  /\
  (sumZ (map amount_m table) <> 0%Z ->
   exists r,
     calculate_integration_roi_on table = Ok r /\
     total_investment r = sumZ (map amount_m table) /\
     total_benefits r = 880%Z /\
     annual_savings r = 68%Z /\
     benefit_cost_ratio r * inject_Z (total_investment r)
     == inject_Z (total_benefits r) /\
     payback_years r * inject_Z (annual_savings r)
     == inject_Z (total_investment r) /\
     benefit_cost_ratio r * payback_years r == 880 # 68).
Proof.
  unfold calculate_integration_roi_on. cbv zeta.
  set (total := sumZ (map amount_m table)).
  split.
  - intro H0. rewrite H0. reflexivity.
  - intro Hne.
    assert (Hnz : ~ inject_Z total == 0).
    { change 0 with (inject_Z 0). rewrite inject_Z_injective. exact Hne. }
    rewrite (div_ok _ _ Hnz). cbn [bind].
    rewrite div_ok by discriminate. cbn [bind].
    eexists. split; [reflexivity|].
    cbn [total_investment total_benefits annual_savings benefit_cost_ratio
         payback_years].
    split; [reflexivity|]. split; [reflexivity|]. split; [reflexivity|].
    change (inject_Z (18 + 50)) with 68.
    change (inject_Z ((18 + 50) * 10 + 200)) with 880.
    split; [field; exact Hnz|]. split; [field|].
    field. exact Hnz.
Qed.

Lemma roi_on_any_table_witness :
  calculate_integration_roi_on [] = Raise ZeroDivisionError /\
  exists r,
    calculate_integration_roi_on INVESTMENT_REQUIREMENTS = Ok r /\
    benefit_cost_ratio r * payback_years r == 880 # 68.
Proof.
  split.
  - apply (roi_on_any_table []). reflexivity.
  - destruct (roi_on_any_table INVESTMENT_REQUIREMENTS) as [_ H].
    destruct H as [r [E [_ [_ [_ [_ [_ H]]]]]]]; [discriminate|].
    exists r. split; assumption.
Defined.

Lemma fold_left_add (xs : list Z) (a : Z) :
  fold_left Z.add xs a = (a + fold_left Z.add xs 0)%Z.
Proof.
  revert a. induction xs as [|x xs IH]; intro a; cbn [fold_left].
  - lia.
  - rewrite IH, (IH (0 + x)%Z). lia.
Qed.

Lemma sumZ_Qsum (xs : list Z) :
  inject_Z (sumZ xs) == Qsum (map inject_Z xs).
Proof.
  unfold sumZ. induction xs as [|x xs IH]; cbn [fold_left map Qsum].
  - reflexivity.
  - rewrite fold_left_add, inject_Z_plus, IH.
    change (0 + x)%Z with x. reflexivity.
Qed.

Lemma fold_left_snoc {A B : Type} (f : A -> B) (xs : list A) (acc : list B) :
  fold_left (fun s x => s ++ [f x])%list xs acc = (acc ++ map f xs)%list.
Proof.
  revert acc. induction xs as [|x xs IH]; intro acc; cbn [fold_left map].
  - rewrite app_nil_r. reflexivity.
  - rewrite IH, <- app_assoc. reflexivity.
Qed.

Lemma shares_sum (T : Q) (xs : list Z) :
  Qsum (map (fun x => inject_Z x / T * 100) xs)
  == Qsum (map inject_Z xs) * (100 / T).
Proof.
  induction xs as [|x xs IH]; cbn [map Qsum].
  - ring.
  - rewrite IH. unfold Qdiv. ring.
Qed.

(** X16.  The investment shares add up to 100: on any table whose total
    investment is not 0 the ['Share'] values [x / total * 100], one per
    component, sum to exactly 100 (before they are rounded for
    display). *)
Theorem investment_shares_sum_to_100 (table : list investment) :
  sumZ (map amount_m table) <> 0%Z ->
  exists shares,
    investment_shares_on table = Ok shares /\
    List.length shares = List.length table /\
    Qsum shares == 100.
Proof.
  intro Hne. unfold investment_shares_on.
  rewrite (roi_on_value table Hne). cbn [bind total_investment].
  set (total := sumZ (map amount_m table)) in *.
  assert (Hnz : ~ inject_Z total == 0).
  { change 0 with (inject_Z 0). rewrite inject_Z_injective. exact Hne. }
  rewrite (for_each_pure _
             (fun shares x =>
                (shares ++ [inject_Z x / inject_Z total * 100])%list)).
  - rewrite (fold_left_snoc (fun x => inject_Z x / inject_Z total * 100)).
    cbn [app]. eexists. split; [reflexivity|]. split.
    + rewrite !length_map. reflexivity.
    + rewrite (shares_sum (inject_Z total)), <- sumZ_Qsum. fold total.
      field. exact Hnz.
  - intros s x _. rewrite (div_ok _ _ Hnz). reflexivity.
Qed.

Lemma investment_shares_sum_to_100_witness :
  exists shares,
    investment_shares_on INVESTMENT_REQUIREMENTS = Ok shares /\
    List.length shares = List.length INVESTMENT_REQUIREMENTS /\
    Qsum shares == 100.
Proof.
  apply (investment_shares_sum_to_100 INVESTMENT_REQUIREMENTS).
  discriminate.
Defined.

(* ------------------------------------------------------------------ *)
(** ** Further properties of the phase progress *)

(** The three outcomes of the loop body, for any phase whatsoever. *)
Lemma phase_progress_value (current_year : Z) (ph : string)
      (info : phase_info) :
  exists r,
    phase_progress current_year ph info = Ok r /\
    phase r = ph /\
    (((current_year < start info)%Z /\
      progress r == 0 /\ status r = "Not Started")
     \/ ((start info <= current_year)%Z /\ (end_ info <= current_year)%Z /\
         progress r == 100 /\ status r = "Complete")
     \/ ((start info <= current_year < end_ info)%Z /\
         progress r == inject_Z (current_year - start info)
                       / inject_Z (end_ info - start info) * 100 /\
         status r = "In Progress")).
Proof.
  unfold phase_progress.
  destruct (Z.ltb_spec current_year (start info)) as [L1|L1].
  - eexists. split; [reflexivity|]. split; [reflexivity|].
    left. split; [exact L1|]. split; reflexivity.
  - destruct (current_year >=? end_ info)%Z eqn:E2.
    + apply Z.geb_le in E2. eexists. split; [reflexivity|].
      split; [reflexivity|].
      right; left. split; [exact L1|]. split; [exact E2|].
      split; reflexivity.
    + assert (L2 : (current_year < end_ info)%Z).
      { destruct (Z.lt_ge_cases current_year (end_ info)) as [H|H];
          [exact H|].
        apply Z.geb_le in H. rewrite H in E2. discriminate. }
      rewrite div_ok.
      * eexists. split; [reflexivity|]. split; [reflexivity|].
        right; right. split; [split; [exact L1 | exact L2]|].
        split; reflexivity.
      * change 0 with (inject_Z 0). rewrite inject_Z_injective. lia.
Qed.

Lemma fraction_bounds (n m : Z) :
  (0 <= n < m)%Z ->
  0 <= inject_Z n / inject_Z m * 100 /\ inject_Z n / inject_Z m * 100 < 100.
Proof.
  intro H.
  assert (Hm : 0 < inject_Z m)
    by (change 0 with (inject_Z 0); rewrite <- Zlt_Qlt; lia).
  assert (Hn : 0 <= inject_Z n)
    by (change 0 with (inject_Z 0); rewrite <- Zle_Qle; lia).
  assert (Hnm : inject_Z n < inject_Z m) by (rewrite <- Zlt_Qlt; lia).
  assert (H0 : 0 <= inject_Z n / inject_Z m)
    by (apply Qle_shift_div_l; [exact Hm | lra]).
  assert (H1 : inject_Z n / inject_Z m < 1)
    by (apply Qlt_shift_div_r; [exact Hm | lra]).
  split; lra.
Qed.

(** X17.  The loop body of [get_phase_progress] is safe for every phase,
    also an empty or inverted one ([start >= end]): it never divides by
    zero, the progress it reports lies between 0 and 100, and a phase
    reported "In Progress" has started, has not ended and is below 100. *)
Theorem phase_progress_safe_and_bounded
        (current_year : Z) (ph : string) (info : phase_info) :
  exists r,
    phase_progress current_year ph info = Ok r /\
    0 <= progress r <= 100 /\
    (status r = "Not Started" \/ status r = "In Progress"
     \/ status r = "Complete") /\
    (status r = "In Progress" ->
     (start info <= current_year < end_ info)%Z /\ progress r < 100).
Proof.
  destruct (phase_progress_value current_year ph info)
    as [r [E [_ [[L [Hp Hs]] | [[L1 [L2 [Hp Hs]]] | [L [Hp Hs]]]]]]];
    exists r; (split; [exact E|]).
  - rewrite Hp, Hs. split; [split; discriminate|].
    split; [left; reflexivity | discriminate].
  - rewrite Hp, Hs. split; [split; discriminate|].
    split; [right; right; reflexivity | discriminate].
  - destruct (fraction_bounds (current_year - start info)
                              (end_ info - start info)) as [B0 B1]; [lia|].
    rewrite Hp, Hs. split; [split; lra|].
    split; [right; left; reflexivity|].
    intros _. split; [exact L | exact B1].
Qed.

Lemma phase_progress_safe_and_bounded_witness :
  exists r,
    phase_progress 2026 "Phase 1"
                   {| start := 2025; end_ := 2028; name := "Foundation" |}
    = Ok r /\
    0 <= progress r <= 100 /\
    progress r < 100.
Proof.
  destruct (phase_progress_safe_and_bounded
              2026 "Phase 1"
              {| start := 2025; end_ := 2028; name := "Foundation" |})
    as [r [E [B [_ H]]]].
  exists r. split; [exact E|]. split; [exact B|].
  apply H.
  assert (Hr : Ok r = phase_progress 2026 "Phase 1"
                 {| start := 2025; end_ := 2028; name := "Foundation" |})
    by (symmetry; exact E).
  vm_compute in Hr. injection Hr as ->. reflexivity.
Defined.

(** X18.  Progress never goes back: for every phase, the progress
    reported for a year is at most the progress reported for any later
    year. *)
Theorem phase_progress_monotone
        (ph : string) (info : phase_info) (y1 y2 : Z) :
  (y1 <= y2)%Z ->
  exists r1 r2,
    phase_progress y1 ph info = Ok r1 /\
    phase_progress y2 ph info = Ok r2 /\
    progress r1 <= progress r2.
Proof.
  intro Hy.
  destruct (phase_progress_value y1 ph info) as [r1 [E1 [_ C1]]].
  destruct (phase_progress_value y2 ph info) as [r2 [E2 [_ C2]]].
  exists r1, r2. split; [exact E1|]. split; [exact E2|].
  destruct C1 as [[L1 [P1 _]] | [[L1 [L1' [P1 _]]] | [L1 [P1 _]]]];
    destruct C2 as [[L2 [P2 _]] | [[L2 [L2' [P2 _]]] | [L2 [P2 _]]]];
    rewrite P1, P2; try lia; try discriminate.
  - destruct (fraction_bounds (y2 - start info) (end_ info - start info))
      as [B0 _]; [lia | exact B0].
  - destruct (fraction_bounds (y1 - start info) (end_ info - start info))
      as [_ B1]; [lia | lra].
  - assert (Hm : 0 < inject_Z (end_ info - start info))
      by (change 0 with (inject_Z 0); rewrite <- Zlt_Qlt; lia).
    assert (Hn : inject_Z (y1 - start info) <= inject_Z (y2 - start info))
      by (rewrite <- Zle_Qle; lia).
    set (m := inject_Z (end_ info - start info)) in *.
    set (n1 := inject_Z (y1 - start info)) in *.
    set (n2 := inject_Z (y2 - start info)) in *.
    assert (n1 / m <= n2 / m).
    { apply Qle_shift_div_l; [exact Hm|].
      setoid_replace (n1 / m * m) with n1 by (field; lra). exact Hn. }
    lra.
Qed.

Lemma phase_progress_monotone_witness :
  exists r1 r2,
    phase_progress 2029 "Phase 2"
                   {| start := 2028; end_ := 2035; name := "Convergence" |}
    = Ok r1 /\
    phase_progress 2033 "Phase 2"
                   {| start := 2028; end_ := 2035; name := "Convergence" |}
    = Ok r2 /\
    progress r1 <= progress r2.
Proof.
  apply (phase_progress_monotone
           "Phase 2" {| start := 2028; end_ := 2035; name := "Convergence" |}
           2029 2033).
  lia.
Defined.

(** X19.  The three integration phases hand over without gap or overlap:
    for every year [get_phase_progress] returns the phases in order, and
    their statuses are all "Not Started" before 2025, all "Complete" from
    2045 on, and in between exactly one phase is "In Progress", the ones
    before it "Complete" and the ones after it "Not Started". *)
Theorem phases_hand_over (current_year : Z) :
  exists r1 r2 r3,
    get_phase_progress current_year = Ok [r1; r2; r3] /\
    map phase [r1; r2; r3] = ["Phase 1"; "Phase 2"; "Phase 3"] /\
    (((current_year < 2025)%Z /\
      map status [r1; r2; r3]
      = ["Not Started"; "Not Started"; "Not Started"])
     \/ ((2025 <= current_year < 2028)%Z /\
         map status [r1; r2; r3]
         = ["In Progress"; "Not Started"; "Not Started"])
     \/ ((2028 <= current_year < 2035)%Z /\
         map status [r1; r2; r3]
         = ["Complete"; "In Progress"; "Not Started"])
     \/ ((2035 <= current_year < 2045)%Z /\
         map status [r1; r2; r3]
         = ["Complete"; "Complete"; "In Progress"])
     \/ ((2045 <= current_year)%Z /\
         map status [r1; r2; r3] = ["Complete"; "Complete"; "Complete"])).
Proof.
  unfold get_phase_progress, phases. cbn [for_each].
  destruct (phase_progress_value
              current_year "Phase 1"
              {| start := 2025; end_ := 2028; name := "Foundation" |})
    as [r1 [E1 [N1 C1]]].
  destruct (phase_progress_value
              current_year "Phase 2"
              {| start := 2028; end_ := 2035; name := "Convergence" |})
    as [r2 [E2 [N2 C2]]].
  destruct (phase_progress_value
              current_year "Phase 3"
              {| start := 2035; end_ := 2045; name := "Full Integration" |})
    as [r3 [E3 [N3 C3]]].
  rewrite E1. cbn [bind for_each]. rewrite E2. cbn [bind for_each].
  rewrite E3. cbn [bind for_each app].
  exists r1, r2, r3. split; [reflexivity|].
  cbn [map]. rewrite N1, N2, N3. split; [reflexivity|].
  cbn [start end_] in C1, C2, C3.
  destruct C1 as [[L1 [_ S1]] | [[L1 [L1' [_ S1]]] | [L1 [_ S1]]]];
    destruct C2 as [[L2 [_ S2]] | [[L2 [L2' [_ S2]]] | [L2 [_ S2]]]];
    destruct C3 as [[L3 [_ S3]] | [[L3 [L3' [_ S3]]] | [L3 [_ S3]]]];
    try lia; rewrite S1, S2, S3.
  - left. split; [lia | reflexivity].
  - do 4 right. split; [lia | reflexivity].
  - do 3 right. left. split; [lia | reflexivity].
  - do 2 right. left. split; [lia | reflexivity].
  - right. left. split; [lia | reflexivity].
Qed.

(* ------------------------------------------------------------------ *)
(** ** Further properties of the price convergence *)

(** Between equal 2024 anchors, lower 2030 and 2045 anchors give a lower
    price in every year after 2024. *)
Lemma country_price_anchor_lt (a b : anchors) (Y : Z) :
  p2024 a == p2024 b -> p2030 a < p2030 b -> p2045 a < p2045 b ->
  ((Y <= 2024)%Z -> country_price Y a == country_price Y b) /\
  ((2024 < Y)%Z -> country_price Y a < country_price Y b).
Proof.
  intros H24 H30 H45. unfold country_price.
  destruct a as [a24 a30 a45]. destruct b as [b24 b30 b45].
  cbn [p2024 p2030 p2045] in *.
  destruct (Z.leb_spec Y 2024) as [L1|L1];
    [split; [intros _; exact H24 | lia]|].
  split; [lia|]. intros _.
  destruct (Z.leb_spec Y 2030) as [L2|L2].
  - assert (Hpr : 0 < inject_Z (Y - 2024)).
    { change 0 with (inject_Z 0). rewrite <- Zlt_Qlt. lia. }
    set (n := inject_Z (Y - 2024)) in *.
    assert (Hd : b24 + (b30 - b24) * (n / 6) - (a24 + (a30 - a24) * (n / 6))
                 == (b24 - a24) * (6 - n) * (1 # 6)
                    + (b30 - a30) * n * (1 # 6)) by field.
    assert (E0 : (b24 - a24) * (6 - n) == 0) by (rewrite H24; ring).
    assert (0 < (b30 - a30) * n) by nra.
    lra.
  - destruct (Z.leb_spec Y 2045) as [L3|L3]; [|exact H45].
    assert (Hlo : 0 < inject_Z (Y - 2030)).
    { change 0 with (inject_Z 0). rewrite <- Zlt_Qlt. lia. }
    assert (Hhi : inject_Z (Y - 2030) <= 15).
    { change 15 with (inject_Z 15). rewrite <- Zle_Qle. lia. }
    set (n := inject_Z (Y - 2030)) in *.
    assert (Hd : b30 + (b45 - b30) * (n / 15) - (a30 + (a45 - a30) * (n / 15))
                 == (b30 - a30) * (15 - n) * (1 # 15)
                    + (b45 - a45) * n * (1 # 15)) by field.
    assert (0 <= (b30 - a30) * (15 - n)) by nra.
    assert (0 < (b45 - a45) * n) by nra.
    lra.
Qed.

(** X20.  Scenario "delayed" multiplies the 2030 and 2045 anchors once, by
    0.8 and 0.9: for every country the delayed price equals the baseline
    price up to 2024 and is strictly below it in every later year, for the
    rule at any integer year and for the cells of the two data frames. *)
Theorem delayed_below_baseline (country : string) (a : anchors) :
  get (scenario_trajectories "baseline") country = Ok a ->
  get (scenario_trajectories "delayed") country
  = Ok (scale_anchors (8 # 10) (9 # 10) a)
  /\ (forall Y,
        ((Y <= 2024)%Z ->
           country_price Y (scale_anchors (8 # 10) (9 # 10) a)
           == country_price Y a) /\
        ((2024 < Y)%Z ->
           country_price Y (scale_anchors (8 # 10) (9 # 10) a)
           < country_price Y a))
  /\ (forall Y, (2024 <= Y <= 2050)%Z ->
        exists dfd dfb vd vb,
          simulate_price_convergence "delayed" = Ok dfd /\
          simulate_price_convergence "baseline" = Ok dfb /\
          cell dfd Y country = Ok vd /\
          cell dfb Y country = Ok vb /\
          ((Y <= 2024)%Z -> vd == vb) /\
          ((2024 < Y)%Z -> vd < vb)).
Proof.
  intro Hget.
  change (scenario_trajectories "baseline") with trajectories in *.
  change (scenario_trajectories "delayed")
    with (scale (8 # 10) (9 # 10) trajectories).
  destruct (base_anchors_positive country a Hget) as [H30 H45].
  pose proof (get_scale (8 # 10) (9 # 10) trajectories country a Hget)
    as Hget'.
  assert (Hrule : forall Y,
             ((Y <= 2024)%Z ->
                country_price Y (scale_anchors (8 # 10) (9 # 10) a)
                == country_price Y a) /\
             ((2024 < Y)%Z ->
                country_price Y (scale_anchors (8 # 10) (9 # 10) a)
                < country_price Y a)).
  { intro Y. apply country_price_anchor_lt; cbn [scale_anchors p2024 p2030 p2045].
    - reflexivity.
    - lra.
    - lra. }
  split; [exact Hget'|]. split; [exact Hrule|].
  intros Y HY.
  destruct (simulate_cell "delayed" country _ Y Hget' HY)
    as [dfd [vd [Ed [Cd Hvd]]]].
  destruct (simulate_cell "baseline" country a Y Hget HY)
    as [dfb [vb [Eb [Cb Hvb]]]].
  exists dfd, dfb, vd, vb.
  repeat (split; [assumption|]).
  destruct (Hrule Y) as [Hle Hgt].
  split; intro H; rewrite Hvd, Hvb; auto.
Qed.

Lemma delayed_below_baseline_witness :
  exists dfd dfb vd vb,
    simulate_price_convergence "delayed" = Ok dfd /\
    simulate_price_convergence "baseline" = Ok dfb /\
    cell dfd 2035 "Indonesia" = Ok vd /\
    cell dfb 2035 "Indonesia" = Ok vb /\
    vd < vb.
Proof.
  destruct (delayed_below_baseline
              "Indonesia" {| p2024 := 25; p2030 := 35; p2045 := 75 |} eq_refl)
    as [_ [_ H]].
  destruct (H 2035%Z) as [dfd [dfb [vd [vb [Ed [Eb [Cd [Cb [_ Hlt]]]]]]]]];
    [lia|].
  exists dfd, dfb, vd, vb. repeat (split; [assumption|]). apply Hlt. lia.
Defined.

(** With ordered anchors the price never falls from one year to a later
    one. *)
Lemma country_price_monotone (a : anchors) (Y1 Y2 : Z) :
  p2024 a <= p2030 a -> p2030 a <= p2045 a -> (Y1 <= Y2)%Z ->
  country_price Y1 a <= country_price Y2 a.
Proof.
  intros H1 H2 HY. destruct a as [q24 q30 q45].
  cbn [p2024 p2030 p2045] in *.
  assert (Hseg1 : forall Y, (2024 <= Y <= 2030)%Z ->
             q24 <= q24 + (q30 - q24) * (inject_Z (Y - 2024) / 6) <= q30).
  { intros Y H.
    assert (0 <= inject_Z (Y - 2024))
      by (change 0 with (inject_Z 0); rewrite <- Zle_Qle; lia).
    assert (inject_Z (Y - 2024) <= 6)
      by (change 6 with (inject_Z 6); rewrite <- Zle_Qle; lia).
    set (n := inject_Z (Y - 2024)) in *.
    setoid_replace (q24 + (q30 - q24) * (n / 6))
      with (q24 + (q30 - q24) * n * (1 # 6)) by field.
    assert (0 <= (q30 - q24) * n) by nra.
    assert (0 <= (q30 - q24) * (6 - n)) by nra.
    split; lra. }
  assert (Hseg2 : forall Y, (2030 <= Y <= 2045)%Z ->
             q30 <= q30 + (q45 - q30) * (inject_Z (Y - 2030) / 15) <= q45).
  { intros Y H.
    assert (0 <= inject_Z (Y - 2030))
      by (change 0 with (inject_Z 0); rewrite <- Zle_Qle; lia).
    assert (inject_Z (Y - 2030) <= 15)
      by (change 15 with (inject_Z 15); rewrite <- Zle_Qle; lia).
    set (n := inject_Z (Y - 2030)) in *.
    setoid_replace (q30 + (q45 - q30) * (n / 15))
      with (q30 + (q45 - q30) * n * (1 # 15)) by field.
    assert (0 <= (q45 - q30) * n) by nra.
    assert (0 <= (q45 - q30) * (15 - n)) by nra.
    split; lra. }
  unfold country_price. cbn [p2024 p2030 p2045].
  destruct (Z.leb_spec Y1 2024) as [A1|A1];
    destruct (Z.leb_spec Y2 2024) as [B1|B1]; try lia.
  - apply Qle_refl.
  - destruct (Z.leb_spec Y2 2030) as [B2|B2].
    + apply (Hseg1 Y2). lia.
    + destruct (Z.leb_spec Y2 2045) as [B3|B3].
      * destruct (Hseg2 Y2) as [Hlo _]; [lia|]. lra.
      * lra.
  - destruct (Z.leb_spec Y1 2030) as [A2|A2];
      destruct (Z.leb_spec Y2 2030) as [B2|B2]; try lia.
    + assert (inject_Z (Y1 - 2024) <= inject_Z (Y2 - 2024))
        by (rewrite <- Zle_Qle; lia).
      set (n1 := inject_Z (Y1 - 2024)) in *.
      set (n2 := inject_Z (Y2 - 2024)) in *.
      assert (Hd : q24 + (q30 - q24) * (n2 / 6)
                   - (q24 + (q30 - q24) * (n1 / 6))
                   == (q30 - q24) * (n2 - n1) * (1 # 6)) by field.
      assert (0 <= (q30 - q24) * (n2 - n1)) by nra. lra.
    + destruct (Hseg1 Y1) as [_ Hhi]; [lia|].
      destruct (Z.leb_spec Y2 2045) as [B3|B3].
      * destruct (Hseg2 Y2) as [Hlo _]; [lia|]. lra.
      * lra.
    + destruct (Z.leb_spec Y1 2045) as [A3|A3];
        destruct (Z.leb_spec Y2 2045) as [B3|B3]; try lia.
      * assert (inject_Z (Y1 - 2030) <= inject_Z (Y2 - 2030))
          by (rewrite <- Zle_Qle; lia).
        set (n1 := inject_Z (Y1 - 2030)) in *.
        set (n2 := inject_Z (Y2 - 2030)) in *.
        assert (Hd : q30 + (q45 - q30) * (n2 / 15)
                     - (q30 + (q45 - q30) * (n1 / 15))
                     == (q45 - q30) * (n2 - n1) * (1 # 15)) by field.
        assert (0 <= (q45 - q30) * (n2 - n1)) by nra. lra.
      * destruct (Hseg2 Y1) as [_ Hhi]; [lia|]. exact Hhi.
      * apply Qle_refl.
Qed.

Lemma scenario_anchors_ordered (scenario country : string) (a : anchors) :
  get (scenario_trajectories scenario) country = Ok a ->
  0 <= p2024 a /\ p2024 a <= p2030 a /\ p2030 a <= p2045 a /\
  0 < p2030 a /\
  (p2024 a == 0 <-> country = "Malaysia").
Proof.
  intro H. apply get_In in H.
  destruct (scenario_trajectories_cases scenario)
    as [[_ E] | [[_ E] | [_ [_ E]]]];
    rewrite E in H; clear E; vm_compute in H;
    repeat (destruct H as [H|H];
            [injection H as <- <-;
             (split; [discriminate|]); (split; [discriminate|]);
             (split; [discriminate|]); (split; [reflexivity|]);
             split; intro H0;
             first [reflexivity | discriminate H0]|]);
    contradiction.
Qed.

(** X21.  In every scenario every country's price path is non-decreasing:
    the price of a year is at most the price of any later year. *)
Theorem price_paths_never_fall
        (scenario country : string) (a : anchors) (Y1 Y2 : Z) :
  get (scenario_trajectories scenario) country = Ok a ->
  (Y1 <= Y2)%Z ->
  country_price Y1 a <= country_price Y2 a /\
  ((2024 <= Y1)%Z -> (Y2 <= 2050)%Z ->
   exists df v1 v2,
     simulate_price_convergence scenario = Ok df /\
     cell df Y1 country = Ok v1 /\
     cell df Y2 country = Ok v2 /\
     v1 <= v2).
Proof.
  intros Hget HY.
  destruct (scenario_anchors_ordered scenario country a Hget)
    as [_ [H1 [H2 _]]].
  pose proof (country_price_monotone a Y1 Y2 H1 H2 HY) as Hmono.
  split; [exact Hmono|].
  intros Hlo Hhi.
  destruct (simulate_cell scenario country a Y1 Hget) as [df [v1 [E [C1 Hv1]]]];
    [lia|].
  destruct (simulate_cell scenario country a Y2 Hget)
    as [df' [v2 [E' [C2 Hv2]]]]; [lia|].
  rewrite E in E'. injection E' as <-.
  exists df, v1, v2. repeat (split; [assumption|]).
  rewrite Hv1, Hv2. exact Hmono.
Qed.

Lemma price_paths_never_fall_witness :
  exists df v1 v2,
    simulate_price_convergence "delayed" = Ok df /\
    cell df 2029 "Singapore" = Ok v1 /\
    cell df 2031 "Singapore" = Ok v2 /\
    v1 <= v2.
Proof.
  destruct (price_paths_never_fall
              "delayed" "Singapore"
              (scale_anchors (8 # 10) (9 # 10)
                             {| p2024 := 59; p2030 := 75; p2045 := 95 |})
              2029 2031 eq_refl)
    as [_ H].
  - lia.
  - apply H; lia.
Defined.

(** X22.  No price of the simulation is negative, and the only price that
    is 0, hence left out of the spread, is Malaysia's in 2024: in every
    scenario, for every country and every year from 2024 to 2050. *)
Theorem only_malaysia_2024_is_inactive
        (scenario country : string) (a : anchors) (Y : Z) :
  get (scenario_trajectories scenario) country = Ok a ->
  (2024 <= Y <= 2050)%Z ->
  exists df v,
    simulate_price_convergence scenario = Ok df /\
    cell df Y country = Ok v /\
    0 <= v /\
    (v == 0 <-> country = "Malaysia" /\ Y = 2024%Z).
Proof.
  intros Hget HY.
  destruct (scenario_anchors_ordered scenario country a Hget)
    as [H0 [H1 [H2 [H3 Hmy]]]].
  destruct (simulate_cell scenario country a Y Hget HY)
    as [df [v [E [C Hv]]]].
  exists df, v. split; [exact E|]. split; [exact C|].
  assert (H2024 : country_price 2024 a == p2024 a) by reflexivity.
  assert (H2025 : 0 < country_price 2025 a).
  { unfold country_price. cbn [Z.leb Z.compare Pos.compare Pos.compare_cont].
    change (inject_Z (2025 - 2024) / 6) with (1 # 6). lra. }
  destruct (Z.eq_dec Y 2024) as [->|Hne].
  - rewrite Hv, H2024. split; [exact H0|].
    rewrite Hmy. split; [intro H; split; [exact H | reflexivity] | tauto].
  - assert (Hpos : 0 < country_price Y a).
    { apply Qlt_le_trans with (country_price 2025 a); [exact H2025|].
      apply country_price_monotone; [exact H1 | exact H2 | lia]. }
    rewrite Hv. split; [lra|].
    split; [intro Hz; lra | intros [_ HYeq]; contradiction].
Qed.

Lemma only_malaysia_2024_is_inactive_witness :
  exists df v,
    simulate_price_convergence "accelerated" = Ok df /\
    cell df 2024 "Malaysia" = Ok v /\
    0 <= v /\
    (v == 0 <-> "Malaysia" = "Malaysia" /\ 2024%Z = 2024%Z).
Proof.
  apply (only_malaysia_2024_is_inactive
           "accelerated" "Malaysia"
           (scale_anchors (12 # 10) (11 # 10)
                          {| p2024 := 0; p2030 := 15; p2045 := 70 |})
           2024).
  - reflexivity.
  - lia.
Defined.

Lemma anchor_spreads_agree_all (scenario : string) :
  anchor_spreads_agree (scenario_trajectories scenario) = true.
Proof.
  destruct (scenario_trajectories_cases scenario)
    as [[_ ->] | [[_ ->] | [_ [_ ->]]]]; vm_compute; reflexivity.
Qed.

(** X23.  Where all countries sit on an anchor the spread does not depend
    on the scenario, because the scenario factor cancels in the ratio: in
    every scenario the spread is 59/20 in 2024, 5 in 2030 and 19/14 (below
    the 1.5 target line of the chart) in each year from 2045 to 2050. *)
Theorem spread_at_anchor_years (scenario : string) (Y : Z) (expected : Q) :
  In (Y, expected)
     [ (2024%Z, 59 # 20); (2030%Z, 5); (2045%Z, 19 # 14); (2046%Z, 19 # 14);
       (2047%Z, 19 # 14); (2048%Z, 19 # 14); (2049%Z, 19 # 14);
       (2050%Z, 19 # 14) ] ->
  exists df s,
    simulate_price_convergence scenario = Ok df /\
    cell df Y "spread" = Ok s /\
    s == expected /\
    ((2045 <= Y)%Z -> s < 15 # 10).
Proof.
  intro Hin. unfold simulate_price_convergence.
  pose proof (anchor_spreads_agree_all scenario) as H.
  unfold anchor_spreads_agree in H.
  destruct (simulate_rows (scenario_trajectories scenario)) as [df|];
    [|discriminate].
  rewrite forallb_forall in H. specialize (H (Y, expected) Hin).
  cbn beta iota in H.
  destruct (cell df Y "spread") as [s|] eqn:Es; [|discriminate].
  apply Qeq_bool_iff in H.
  exists df, s. split; [reflexivity|]. split; [exact Es|].
  split; [exact H|].
  intro HY. rewrite H. cbn [In] in Hin.
  repeat (destruct Hin as [Hin|Hin];
          [injection Hin as <- <-; first [lia | reflexivity]|]).
  contradiction.
Qed.

Lemma spread_at_anchor_years_witness :
  exists df s,
    simulate_price_convergence "delayed" = Ok df /\
    cell df 2045 "spread" = Ok s /\
    s == 19 # 14 /\
    ((2045 <= 2045)%Z -> s < 15 # 10).
Proof.
  apply (spread_at_anchor_years "delayed" 2045 (19 # 14)).
  do 2 right. left. reflexivity.
Defined.

Lemma spread_steps_agree_all (scenario : string) :
  spread_steps_agree (scenario_trajectories scenario) = true.
Proof.
  destruct (scenario_trajectories_cases scenario)
    as [[_ ->] | [[_ ->] | [_ [_ ->]]]]; vm_compute; reflexivity.
Qed.

(** X24.  In every scenario the spread first jumps, from 2024 to 2025,
    when Malaysia's price becomes positive and enters the ratio; it then
    falls strictly every year until 2045 and stays constant from 2045
    to 2050. *)
Theorem spread_rises_once_then_falls (scenario : string) (Y : Z) :
  (2024 <= Y < 2050)%Z ->
  exists df s s',
    simulate_price_convergence scenario = Ok df /\
    cell df Y "spread" = Ok s /\
    cell df (Y + 1) "spread" = Ok s' /\
    (Y = 2024%Z -> s < s') /\
    ((2025 <= Y < 2045)%Z -> s' < s) /\
    ((2045 <= Y)%Z -> s' == s).
Proof.
  intro HY. unfold simulate_price_convergence.
  pose proof (spread_steps_agree_all scenario) as H.
  unfold spread_steps_agree in H.
  destruct (simulate_rows (scenario_trajectories scenario)) as [df|];
    [|discriminate].
  rewrite forallb_forall in H.
  specialize (H Y ltac:(apply in_range2; lia)). cbn beta in H.
  destruct (cell df Y "spread") as [s|] eqn:Es; [|discriminate].
  destruct (cell df (Y + 1) "spread") as [s'|] eqn:Es'; [|discriminate].
  exists df, s, s'. split; [reflexivity|]. split; [exact Es|].
  split; [exact Es'|].
  destruct (Z.eqb_spec Y 2024) as [E24|N24].
  - apply Qlt_bool_iff in H.
    split; [intros _; exact H|]. split; intro; lia.
  - destruct (Z.ltb_spec Y 2045) as [L|L].
    + apply Qlt_bool_iff in H.
      split; [intro; contradiction|]. split; [intros _; exact H | intro; lia].
    + apply Qeq_bool_iff in H.
      split; [intro; contradiction|]. split; [intro; lia | intros _; exact H].
Qed.

Lemma spread_rises_once_then_falls_witness :
  exists df s s',
    simulate_price_convergence "baseline" = Ok df /\
    cell df 2024 "spread" = Ok s /\
    cell df (2024 + 1) "spread" = Ok s' /\
    s < s'.
Proof.
  destruct (spread_rises_once_then_falls "baseline" 2024)
    as [df [s [s' [E [C [C' [H _]]]]]]]; [lia|].
  exists df, s, s'. repeat (split; [assumption|]). apply H. reflexivity.
Defined.

(* ------------------------------------------------------------------ *)
(** ** Refinery analysis tab *)

Lemma sumZ_cons (x : Z) (xs : list Z) : sumZ (x :: xs) = (x + sumZ xs)%Z.
Proof.
  unfold sumZ. cbn [fold_left]. rewrite fold_left_add. lia.
Qed.

Lemma sumZ_app (xs ys : list Z) : sumZ (xs ++ ys) = (sumZ xs + sumZ ys)%Z.
Proof.
  induction xs as [|x xs IH]; cbn [app].
  - reflexivity.
  - rewrite !sumZ_cons, IH. lia.
Qed.

Lemma sumZ_bounds (lo hi : Z) (xs : list Z) :
  Forall (fun y => (lo <= y <= hi)%Z) xs ->
  (lo * Z.of_nat (List.length xs) <= sumZ xs
   <= hi * Z.of_nat (List.length xs))%Z.
Proof.
  induction 1 as [|x xs Hx _ IH].
  - cbn. lia.
  - rewrite sumZ_cons. cbn [List.length]. lia.
Qed.

(** The mean of a non-empty list lies between its least and its greatest
    element. *)
Lemma mean_bounds (lo hi : Z) (xs : list Z) :
  xs <> [] -> Forall (fun y => (lo <= y <= hi)%Z) xs ->
  inject_Z lo <= mean xs <= inject_Z hi.
Proof.
  intros Hne Hall. pose proof (sumZ_bounds lo hi xs Hall) as [Hlo Hhi].
  unfold mean.
  assert (Hlen : (0 < Z.of_nat (List.length xs))%Z)
    by (destruct xs; [contradiction | cbn [List.length]; lia]).
  set (n := Z.of_nat (List.length xs)) in *.
  assert (Hn : 0 < inject_Z n)
    by (change 0 with (inject_Z 0); rewrite <- Zlt_Qlt; exact Hlen).
  split.
  - apply Qle_shift_div_l; [exact Hn|].
    rewrite <- inject_Z_mult, <- Zle_Qle. exact Hlo.
  - apply Qle_shift_div_r; [exact Hn|].
    rewrite <- inject_Z_mult, <- Zle_Qle. exact Hhi.
Qed.

Lemma risk_counts_disjoint (ages : list Z) :
  (0 <= high_risk_count ages)%Z /\
  (0 <= transition_ready_count ages)%Z /\
  (high_risk_count ages + transition_ready_count ages
   <= Z.of_nat (List.length ages))%Z.
Proof.
  unfold high_risk_count, transition_ready_count.
  split; [lia|]. split; [lia|].
  induction ages as [|a ages IH]; cbn [filter List.length].
  - lia.
  - destruct (Z.ltb_spec 50 a); destruct (Z.ltb_spec a 30);
      cbn [List.length]; lia.
Qed.

Lemma refinery_countries_known :
  Forall (fun r => In (Refinery.country r) (map fst COUNTRY_DATA))
         REFINERY_DATA.
Proof.
  unfold REFINERY_DATA.
  repeat (constructor; [vm_compute; tauto|]). constructor.
Qed.

Lemma filtered_refineries_In (refineries : list Refinery.t)
      (cf xf : list string) (r : Refinery.t) :
  In r (filtered_refineries_on refineries cf xf) <->
  In r refineries /\ In (Refinery.country r) cf
  /\ In (Refinery.complexity r) xf.
Proof.
  unfold filtered_refineries_on. rewrite filter_In, andb_true_iff.
  assert (Hex : forall (s : string) (l : list string),
             existsb (String.eqb s) l = true <-> In s l).
  { intros s l. rewrite existsb_exists. split.
    - intros [x [Hx E]]. apply String.eqb_eq in E. subst x. exact Hx.
    - intro H. exists s. split; [exact H | apply String.eqb_refl]. }
  rewrite !Hex. tauto.
Qed.

Section FleetLoop.

Variable refineries : list Refinery.t.
Variables cf0 xf : list string.
Hypothesis known :
  Forall (fun r => In (Refinery.country r) (map fst COUNTRY_DATA)) refineries.

Let filtered := filtered_refineries_on refineries cf0 xf.

Let body (summary_data : list Summary.row) (country : string)
  : result (list Summary.row) :=
  match country_refs filtered country with
  | [] => Ok summary_data
  | (_ :: _) as refs =>
      let ages := map Refinery.age_years refs in
      _ <- get COUNTRY_DATA country ;;
      oldest <- maxZ ages ;;
      newest <- minZ ages ;;
      Ok (summary_data ++
          [ {| Summary.Country := country;
               Summary.Refineries := Z.of_nat (List.length refs);
               Summary.Avg_Age := mean ages;
               Summary.Oldest := oldest;
               Summary.Newest := newest;
               Summary.High_Risk := high_risk_count ages;
               Summary.Transition_Ready := transition_ready_count ages |} ])%list
  end.

(** One pass of the loop appends at most one row, raises nothing, and the
    row it appends is well formed. *)
Lemma fleet_step (acc : list Summary.row) (c : string) :
  exists new,
    body acc c = Ok (acc ++ new)%list /\
    Forall summary_row_ok new /\
    Forall (fun r => Summary.Country r = c) new /\
    sumZ (map Summary.Refineries new)
    = Z.of_nat (List.length (country_refs filtered c)).
Proof.
  unfold body.
  destruct (country_refs filtered c) as [|r0 rs] eqn:Erefs.
  - exists []. rewrite app_nil_r. repeat split; constructor.
  - assert (Hr0 : In r0 (country_refs filtered c))
      by (rewrite Erefs; left; reflexivity).
    unfold country_refs in Hr0. apply filter_In in Hr0.
    destruct Hr0 as [Hin Hc]. apply String.eqb_eq in Hc.
    apply filtered_refineries_In in Hin. destruct Hin as [Hin _].
    rewrite Forall_forall in known. specialize (known r0 Hin).
    rewrite Hc in known.
    destruct (get_of_In COUNTRY_DATA c known) as [cd Hget].
    rewrite Hget. cbn [bind].
    set (ages := map Refinery.age_years (r0 :: rs)).
    assert (Hne : ages <> []) by discriminate.
    destruct (maxZ_spec ages Hne) as [hi [Ehi [_ Hhi]]].
    destruct (minZ_spec ages Hne) as [lo [Elo [_ Hlo]]].
    rewrite Ehi, Elo. cbn [bind].
    eexists. split; [reflexivity|]. split; [|split].
    + constructor; [|constructor].
      unfold summary_row_ok.
      cbn [Summary.Refineries Summary.Avg_Age Summary.Oldest Summary.Newest
           Summary.High_Risk Summary.Transition_Ready].
      assert (Hb : Forall (fun y => (lo <= y <= hi)%Z) ages).
      { rewrite Forall_forall in *. intros y Hy. split; auto. }
      destruct (mean_bounds lo hi ages Hne Hb) as [M1 M2].
      destruct (risk_counts_disjoint ages) as [C1 [C2 C3]].
      unfold ages in C3. rewrite length_map in C3.
      cbn [List.length] in *.
      repeat split; try assumption; lia.
    + constructor; [reflexivity | constructor].
    + cbn [map Summary.Refineries]. rewrite sumZ_cons. cbn. lia.
Qed.

Lemma fleet_loop (cf : list string) (acc : list Summary.row) :
  exists rows,
    for_each cf acc body = Ok (acc ++ rows)%list /\
    Forall summary_row_ok rows /\
    Forall (fun r => In (Summary.Country r) cf) rows /\
    sumZ (map Summary.Refineries rows)
    = sumZ (map (fun c => Z.of_nat (List.length (country_refs filtered c)))
                cf).
Proof.
  revert acc. induction cf as [|c cf IH]; intro acc; cbn [for_each].
  - exists []. rewrite app_nil_r. repeat split; constructor.
  - destruct (fleet_step acc c) as [new [E [Hok [Hc Hsum]]]].
    rewrite E. cbn [bind].
    destruct (IH (acc ++ new)%list) as [rows [E' [Hok' [Hc' Hsum']]]].
    exists (new ++ rows)%list. rewrite app_assoc. split; [exact E'|].
    split; [apply Forall_app; split; assumption|].
    split.
    + apply Forall_app. split.
      * eapply Forall_impl; [|exact Hc]. intros r Hr. left. symmetry.
        exact Hr.
      * eapply Forall_impl; [|exact Hc']. intros r Hr. right. exact Hr.
    + rewrite map_app, sumZ_app, Hsum, Hsum'. cbn [map].
      rewrite sumZ_cons. reflexivity.
Qed.

End FleetLoop.

(** X25.  The fleet summary raises nothing, whatever the two filters hold
    (unknown names, repeated names, nothing at all): a country without a
    refinery that passes the filters gets no row, so [max], [min] and the
    mean only see non-empty lists, and every country that has one is a key
    of [COUNTRY_DATA].  Every row belongs to a country of the filter,
    counts at least one refinery, has its average age between the newest
    and the oldest, and counts no refinery as both high risk and
    transition ready. *)
Theorem fleet_summary_safe (country_filter complexity_filter : list string) :
  exists rows,
    fleet_summary country_filter complexity_filter = Ok rows /\
    Forall (fun r =>
              In (Summary.Country r) country_filter /\
              (1 <= Summary.Refineries r)%Z /\
              inject_Z (Summary.Newest r) <= Summary.Avg_Age r
              <= inject_Z (Summary.Oldest r) /\
              (0 <= Summary.High_Risk r)%Z /\
              (0 <= Summary.Transition_Ready r)%Z /\
              (Summary.High_Risk r + Summary.Transition_Ready r
               <= Summary.Refineries r)%Z)
           rows.
Proof.
  pose proof (fleet_loop REFINERY_DATA country_filter complexity_filter
                         refinery_countries_known country_filter [])
    as H.
  cbv zeta in H. destruct H as [rows [E [Hok [Hc _]]]].
  exists rows. split; [exact E|].
  rewrite Forall_forall in *. intros r Hr.
  specialize (Hok r Hr). specialize (Hc r Hr).
  unfold summary_row_ok in Hok. tauto.
Qed.

Lemma indicator_sum (k : string) (cf : list string) :
  NoDup cf -> In k cf ->
  sumZ (map (fun c => if String.eqb k c then 1%Z else 0%Z) cf) = 1%Z.
Proof.
  intros Hnd. induction Hnd as [|c cf Hnot _ IH]; intro Hin.
  - contradiction.
  - cbn [map]. rewrite sumZ_cons.
    destruct (String.eqb_spec k c) as [->|Hne].
    + assert (Hz : sumZ (map (fun c0 => if String.eqb c c0 then 1%Z else 0%Z)
                             cf) = 0%Z).
      { clear IH Hin. induction cf as [|d cf IHcf]; [reflexivity|].
        cbn [map]. rewrite sumZ_cons.
        destruct (String.eqb_spec c d) as [->|_].
        - exfalso. apply Hnot. left. reflexivity.
        - rewrite IHcf; [reflexivity|].
          intro H. apply Hnot. right. exact H. }
      rewrite Hz. reflexivity.
    + destruct Hin as [Hin|Hin]; [congruence|].
      rewrite (IH Hin). reflexivity.
Qed.

Lemma sumZ_map_add {A : Type} (f g : A -> Z) (xs : list A) :
  sumZ (map (fun x => (f x + g x)%Z) xs)
  = (sumZ (map f xs) + sumZ (map g xs))%Z.
Proof.
  induction xs as [|x xs IH]; cbn [map].
  - reflexivity.
  - rewrite !sumZ_cons, IH. lia.
Qed.

(** Grouping by the countries of a duplicate-free filter loses nothing and
    counts nothing twice. *)
Lemma country_refs_partition (l : list Refinery.t) (cf : list string) :
  NoDup cf ->
  (forall r, In r l -> In (Refinery.country r) cf) ->
  sumZ (map (fun c => Z.of_nat (List.length (country_refs l c))) cf)
  = Z.of_nat (List.length l).
Proof.
  intros Hnd. induction l as [|r l IH]; intro Hin.
  - cbn [country_refs filter List.length]. clear Hnd Hin.
    induction cf as [|c cf IHcf]; [reflexivity|].
    cbn [map]. rewrite sumZ_cons, IHcf. reflexivity.
  - assert (E : map (fun c => Z.of_nat (List.length (country_refs (r :: l) c)))
                    cf
                = map (fun c =>
                         ((if String.eqb (Refinery.country r) c
                           then 1 else 0)
                          + Z.of_nat (List.length (country_refs l c)))%Z) cf).
    { apply map_ext. intro c. unfold country_refs. cbn [filter].
      destruct (String.eqb (Refinery.country r) c); cbn [List.length]; lia. }
    rewrite E, sumZ_map_add.
    rewrite indicator_sum; [|exact Hnd | apply Hin; left; reflexivity].
    rewrite IH by (intros r' Hr'; apply Hin; right; exact Hr').
    cbn [List.length]. lia.
Qed.

(** X26.  With no country named twice in the filter, the summary accounts
    for every refinery that passes the filters exactly once: the
    ['Refineries'] counts of its rows add up to the number of filtered
    refineries. *)
Theorem fleet_summary_counts_every_refinery
        (country_filter complexity_filter : list string) :
  NoDup country_filter ->
  exists rows,
    fleet_summary country_filter complexity_filter = Ok rows /\
    sumZ (map Summary.Refineries rows)
    = Z.of_nat (List.length (filtered_refineries_on
                               REFINERY_DATA country_filter
                               complexity_filter)).
Proof.
  intro Hnd.
  pose proof (fleet_loop REFINERY_DATA country_filter complexity_filter
                         refinery_countries_known country_filter [])
    as H.
  cbv zeta in H. destruct H as [rows [E [_ [_ Hsum]]]].
  exists rows. split; [exact E|].
  rewrite Hsum. apply country_refs_partition; [exact Hnd|].
  intros r Hr. apply filtered_refineries_In in Hr. tauto.
Qed.

Lemma fleet_summary_counts_every_refinery_witness :
  exists rows,
    fleet_summary ["Singapore"; "Thailand"; "Indonesia"; "Malaysia"; "Vietnam"]
                  ["High"; "Medium"; "Low"] = Ok rows /\
    sumZ (map Summary.Refineries rows)
    = Z.of_nat (List.length
                  (filtered_refineries_on
                     REFINERY_DATA
                     ["Singapore"; "Thailand"; "Indonesia"; "Malaysia";
                      "Vietnam"]
                     ["High"; "Medium"; "Low"])).
Proof.
  apply (fleet_summary_counts_every_refinery
           ["Singapore"; "Thailand"; "Indonesia"; "Malaysia"; "Vietnam"]
           ["High"; "Medium"; "Low"]).
  repeat (constructor;
          [cbn [In]; intro H;
           repeat (destruct H as [H|H]; [discriminate H|]); exact H|]).
  constructor.
Defined.

(** X27.  The two displays of the refinery tab disagree at age 30: the
    ['High Risk'] count of the summary is the number of refineries the
    table labels "High", but ['Transition Ready'] counts ages below 30
    while the table labels ages up to 30 "Low", so the "Low" labels exceed
    ['Transition Ready'] by the refineries exactly 30 years old. *)
Theorem risk_label_and_summary_counts (ages : list Z) :
  high_risk_count ages
  = Z.of_nat (List.length
                (filter (fun a => String.eqb (risk_level a) "High") ages))
  /\
  (transition_ready_count ages
   + Z.of_nat (List.length (filter (fun a => (a =? 30)%Z) ages))
   = Z.of_nat (List.length
                 (filter (fun a => String.eqb (risk_level a) "Low") ages)))%Z
  /\ risk_level 30 = "Low"
  /\ transition_ready_count [30%Z] = 0%Z.
Proof.
  unfold high_risk_count, transition_ready_count.
  split; [|split; [|split; reflexivity]].
  - f_equal. f_equal. apply filter_ext. intro a. unfold risk_level.
    destruct (50 <? a)%Z; [reflexivity|].
    destruct (30 <? a)%Z; reflexivity.
  - induction ages as [|a ages IH]; [reflexivity|].
    cbn [filter]. unfold risk_level at 1.
    destruct (Z.ltb_spec a 30) as [L|L];
      destruct (Z.eqb_spec a 30) as [E|E];
      destruct (Z.ltb_spec 50 a) as [H|H];
      destruct (Z.ltb_spec 30 a) as [M|M];
      try lia; cbn [String.eqb Ascii.eqb Bool.eqb List.length]; lia.
Qed.
